(** * chat-app/backend/index.js: the live message delivery subsystem

    A shallow embedding of the socket handlers (handshake, presence map,
    [sendMessage]) and of the contact and message endpoints of
    [chat-app/backend/index.js], together with the properties the
    specification states about them.

    Conventions of the embedding:
    - a JavaScript string is a [string]; a property that may be missing
      from a payload is an [option string] ([None] is [undefined]). The
      payloads and request bodies covered are those whose properties are
      strings where they are there: a client can put any JSON value in
      their place, the handlers pass it on unchecked, and what mongoose,
      bcrypt and jsonwebtoken make of such a value is not followed here;
    - a [Date] is the number of milliseconds since the epoch, in [Z];
    - a rejected promise or a thrown exception is [Throw e] in the [Exc]
      monad, a resolved one is [Ok v];
    - the mutable global [userMap] and the MongoDB collections are passed
      explicitly from handler to handler. *)

From Stdlib Require Import ZArith NArith Ascii String.
From stdpp Require Import base option list gmap strings sorting.

Local Open Scope string_scope.
Local Open Scope Z_scope.
Local Open Scope list_scope.

(** ** JavaScript values as far as the handlers look at them *)

Module Js.

(** [!s] for a string: only the empty string is falsy. *)
Definition falsy_string (s : string) : bool :=
  match s with EmptyString => true | String _ _ => false end.

(** [!x] for a property that holds a string when it is there. *)
Definition falsy (x : option string) : bool :=
  match x with None => true | Some s => falsy_string s end.

(** [x || d] where [x] is a possibly missing string. *)
Definition or_else (x : option string) (d : string) : string :=
  match x with
  | Some s => if falsy_string s then d else s
  | None => d
  end.

(** The values [getContacts] compares and collects. An ObjectId is an
    object: two of them are the same value only if they are the same
    object, here told apart by the document and the property that holds
    it. *)
Inductive value :=
  | undefined
  | str (s : string)
  | oid (doc prop : string) (hex : string).

#[global] Instance value_eq_dec : EqDecision value.
Proof. solve_decision. Defined.

(** [a === b]. *)
Definition strict_equal (a b : value) : bool :=
  match a, b with
  | undefined, undefined => true
  | str s, str s' => bool_decide (s = s')
  | oid d p _, oid d' p' _ => bool_decide (d = d') && bool_decide (p = p')
  | _, _ => false
  end.

(** [set.add(x)] on a [Set], kept in insertion order. *)
Definition Set_add (x : value) (set : list value) : list value :=
  if existsb (strict_equal x) set then set else set ++ [x].

End Js.

(** ** Exceptions *)

Inductive error :=
  | CastError (value : string)        (* mongoose: value is not an ObjectId *)
  | ValidationError (path : string)   (* mongoose: a required path is empty *)
  | MongoError                        (* the driver could not run the operation *)
  | TypeError (msg : string).         (* JavaScript: calling what is no function *)

Inductive Exc (A : Type) :=
  | Ok (a : A)
  | Throw (e : error).
Arguments Ok {A} a.
Arguments Throw {A} e.

#[global] Instance Exc_ret : MRet Exc := @Ok.
#[global] Instance Exc_bind : MBind Exc := λ A B f m,
  match m with Ok a => f a | Throw e => Throw e end.

(** [arr.forEach(f)] for a callback that may throw: the first exception
    ends the loop. The accumulator is the state the callback mutates. *)
Fixpoint forEach {A S : Type} (f : S → A → Exc S) (arr : list A) (s : S) : Exc S :=
  match arr with
  | [] => Ok s
  | x :: arr' => s' ← f s x; forEach f arr' s'
  end.

(** The methods of [String.prototype] that index.js could mean; property
    names are case sensitive. *)
Definition String_prototype (name : string) : option (string → Js.value) :=
  if bool_decide (name = "toString") then Some Js.str
  else if bool_decide (name = "valueOf") then Some Js.str
  else None.

(** [s.name()] for a string [s]: calling a property that is [undefined]
    throws. *)
Definition call_method (s : string) (name : string) : Exc Js.value :=
  match String_prototype name with
  | Some f => Ok (f s)
  | None => Throw (TypeError (String.append name " is not a function"))
  end.

(** ** ObjectIds *)

(** An ObjectId is kept as its 24 digit lower-case hexadecimal string, which
    is what [toString()] and [user.id] give. *)
Abbreviation ObjectId := string.

Definition is_hex_digit (c : ascii) : bool :=
  let n := N_of_ascii c in
  ((48 <=? n) && (n <=? 57) || (97 <=? n) && (n <=? 102)
   || (65 <=? n) && (n <=? 70))%N.

Definition to_lower (c : ascii) : ascii :=
  let n := N_of_ascii c in
  if ((65 <=? n) && (n <=? 90))%N then ascii_of_N (n + 32) else c.

Fixpoint string_forall (p : ascii → bool) (s : string) : bool :=
  match s with
  | EmptyString => true
  | String c s' => p c && string_forall p s'
  end.

Fixpoint string_map (f : ascii → ascii) (s : string) : string :=
  match s with
  | EmptyString => EmptyString
  | String c s' => String (f c) (string_map f s')
  end.

(** Mongoose's cast of a string to an ObjectId (mongoose 7 and later): 24
    hexadecimal digits, in either case. Anything else is a [CastError]. *)
Definition castObjectId (s : string) : Exc ObjectId :=
  if (String.length s =? 24)%nat && string_forall is_hex_digit s
  then Ok (string_map to_lower s)
  else Throw (CastError s).

(** ** The environment of one handler run *)

(** What a handler reads from outside the program: the configuration
    ([process.env], mongoose's [strictQuery] option), whether the database
    answers, the clock and the id the driver generates for a new document. *)
Record Env := {
  SECRET_KEY : string;
  strictQuery : bool;
  mongo_reads : bool;
  mongo_writes : bool;
  now : Z;
  fresh_id : ObjectId;
}.

Definition mongo_read {A} (env : Env) (k : Exc A) : Exc A :=
  if mongo_reads env then k else Throw MongoError.

Definition mongo_write {A} (env : Env) (k : Exc A) : Exc A :=
  if mongo_writes env then k else Throw MongoError.

(** ** The collections *)

(** MongoDB's [{ $regex: pattern, $options: "i" }]: the test a pattern
    stands for, ignoring case, or [None] for what is no regular
    expression (the server then refuses the query). *)
Class RegexEngine := regex_i : string → option (string → bool).

(** [userSchema] and the queries on it. *)
Module User.

Record t := {
  _id : ObjectId;
  email : string;
  password : string;
  firstName : option string;
  lastName : option string;
  color : option string;
  profileSetup : bool;
}.

#[global] Instance t_eq_dec : EqDecision t.
Proof. solve_decision. Defined.

(** [User.findById(id)]: the document with that [_id], or [null]. *)
Definition findById (env : Env) (users : list t) (id : string) : Exc (option t) :=
  o ← castObjectId id;
  mongo_read env (Ok (List.find (λ u, bool_decide (_id u = o)) users)).

(** A document under the projection "_id firstName lastName email color". *)
Record contact := {
  c_id : ObjectId;
  c_firstName : option string;
  c_lastName : option string;
  c_email : string;
  c_color : option string;
}.

#[global] Instance contact_eq_dec : EqDecision contact.
Proof. solve_decision. Defined.

Definition project (u : t) : contact :=
  {| c_id := _id u; c_firstName := firstName u; c_lastName := lastName u;
     c_email := email u; c_color := color u |}.

(** The cast of one element of an [$in] array on [_id]: [undefined]
    stays as it is and equals no [_id]. *)
Definition cast_in (v : Js.value) : Exc (option ObjectId) :=
  match v with
  | Js.undefined => Ok None
  | Js.str s => o ← castObjectId s; Ok (Some o)
  | Js.oid _ _ hex => Ok (Some hex)
  end.

Fixpoint cast_all (vs : list Js.value) : Exc (list (option ObjectId)) :=
  match vs with
  | [] => Ok []
  | v :: vs' => o ← cast_in v; os ← cast_all vs'; Ok (o :: os)
  end.

(** [User.find({ _id: { $in: ids } }, "_id firstName lastName email color")]. *)
Definition find_in (env : Env) (users : list t) (ids : list Js.value) : Exc (list contact) :=
  os ← cast_all ids;
  mongo_read env
    (Ok (project <$> List.filter (λ u, bool_decide (Some (_id u) ∈ os)) users)).

(** [new User({ email, password })]: the other paths are unset, but for
    the default of [profileSetup]. *)
Definition new (env : Env) (email password : string) : t :=
  {| _id := fresh_id env; email := email; password := password;
     firstName := None; lastName := None; color := None; profileSetup := false |}.

(** The [required: true] paths of [userSchema]. *)
Definition validate (u : t) : Exc unit :=
  if Js.falsy_string (email u) then Throw (ValidationError "email")
  else if Js.falsy_string (password u) then Throw (ValidationError "password")
  else Ok ().

(** [newUser.save()]: validation, then the insert, which the server
    refuses for an [_id] or (the index of [unique: true]) an [email] the
    collection already has. *)
Definition save (env : Env) (users : list t) (u : t) : Exc (list t) :=
  _ ← validate u;
  mongo_write env
    (if existsb (λ v, bool_decide (_id v = _id u) || bool_decide (email v = email u)) users
     then Throw MongoError
     else Ok (users ++ [u])).

(** [User.findOne({ email })]. *)
Definition findOne (env : Env) (users : list t) (email' : string) : Exc (option t) :=
  mongo_read env (Ok (List.find (λ u, bool_decide (email u = email')) users)).

(** The update [{ firstName, lastName, color }] on one document; a key
    whose value is [undefined] is left out of the update (mongoose 6 and
    later). *)
Definition set_profile (firstName' lastName' : string) (color' : option string) (u : t) : t :=
  {| _id := _id u; email := email u; password := password u;
     firstName := Some firstName'; lastName := Some lastName';
     color := if color' is Some c then Some c else color u;
     profileSetup := profileSetup u |}.

(** The first document [p] holds of, replaced by its image under [f]. *)
Fixpoint update_first (p : t → bool) (f : t → t) (users : list t) : list t :=
  match users with
  | [] => []
  | u :: users' => if p u then f u :: users' else u :: update_first p f users'
  end.

(** [User.findOneAndUpdate({ email }, { firstName, lastName, color })]:
    the document as it was found ([null] if there is none), and the
    collection afterwards. *)
Definition findOneAndUpdate (env : Env) (users : list t) (email' : string)
    (firstName' lastName' : string) (color' : option string) : Exc (option t * list t) :=
  mongo_write env
    (Ok (List.find (λ u, bool_decide (email u = email')) users,
         update_first (λ u, bool_decide (email u = email'))
           (set_profile firstName' lastName' color') users)).

(** [User.find({ _id: { $ne: id } }, "firstName lastName email color")];
    [_id] is part of every projection that does not exclude it. *)
Definition find_others (env : Env) (users : list t) (id : string) : Exc (list contact) :=
  o ← castObjectId id;
  mongo_read env
    (Ok (project <$> List.filter (λ u, negb (bool_decide (_id u = o))) users)).

(** Whether a path that may be unset matches; an unset path matches no
    regular expression. *)
Definition test_path (re : string → bool) (v : option string) : bool :=
  if v is Some s then re s else false.

(** [User.find({ _id: { $ne: id }, $or: [ { firstName: { $regex, $options } },
    { lastName: ... }, { email: ... } ] })]: whole documents. *)
Definition find_matching {engine : RegexEngine} (env : Env) (users : list t)
    (id query : string) : Exc (list t) :=
  o ← castObjectId id;
  mongo_read env
    (match regex_i query with
     | None => Throw MongoError
     | Some re =>
       Ok (List.filter
             (λ u, negb (bool_decide (_id u = o))
                   && (test_path re (firstName u) || test_path re (lastName u)
                       || re (email u)))
             users)
     end).

End User.

(** [messageSchema] and the queries on it. *)
Module Message.

(** A message document. [sender] and [recipient] are [null] ([None]) in
    a document built from a user that was not found; [timestamp] and
    [_id] are set when the document is built. *)
Record t := {
  _id : ObjectId;
  sender : option ObjectId;
  recipient : option ObjectId;
  content : string;
  messageType : option string;
  timestamp : Z;
}.

#[global] Instance t_eq_dec : EqDecision t.
Proof. solve_decision. Defined.

(** [new Message({ sender, recipient, content, messageType })] where
    [sender] and [recipient] are the results of [User.findById]: a user
    document is cast to its [_id]. *)
Definition new (env : Env) (senderObject recipientObject : option User.t)
    (content : string) (messageType : option string) : t :=
  {| _id := fresh_id env;
     sender := User._id <$> senderObject;
     recipient := User._id <$> recipientObject;
     content := content;
     messageType := messageType;
     timestamp := now env |}.

(** The [required: true] paths of the schema, checked by [save]. *)
Definition validate (m : t) : Exc unit :=
  if negb (bool_decide (is_Some (sender m))) then Throw (ValidationError "sender")
  else if negb (bool_decide (is_Some (recipient m))) then Throw (ValidationError "recipient")
  else if Js.falsy_string (content m) then Throw (ValidationError "content")
  else Ok ().

(** [newMessage.save()]: validation, then the insert. *)
Definition save (env : Env) (coll : list t) (m : t) : Exc (list t) :=
  _ ← validate m;
  mongo_write env (Ok (coll ++ [m])).

(** The property names the filters of index.js use. [receiver] is not a
    path of [messageSchema], and no stored document has such a field. *)
Inductive path := p_sender | p_recipient | p_receiver.

Definition schema (p : path) : option (t → option ObjectId) :=
  match p with
  | p_sender => Some sender
  | p_recipient => Some recipient
  | p_receiver => None
  end.

(** A filter [{ $or: [ {p: v, ...}, ... ] }]: a disjunction of objects,
    each a conjunction of equalities. *)
Definition clause := list (path * string).
Definition filter := list clause.

(** Casting a filter against the schema: the value of an ObjectId path
    is cast (and may throw); a name outside the schema is left alone. *)
Definition cast_cond (c : path * string) : Exc (path * string) :=
  match schema c.1 with
  | Some _ => o ← castObjectId c.2; Ok (c.1, o)
  | None => Ok c
  end.

Fixpoint cast_clause (c : clause) : Exc clause :=
  match c with
  | [] => Ok []
  | x :: c' => x' ← cast_cond x; c'' ← cast_clause c'; Ok (x' :: c'')
  end.

Fixpoint cast (q : filter) : Exc filter :=
  match q with
  | [] => Ok []
  | c :: q' => c' ← cast_clause c; q'' ← cast q'; Ok (c' :: q'')
  end.

(** Whether a document satisfies a cast condition. No stored document has
    a field outside the schema, so a condition on such a name, when it
    gets to MongoDB, holds of none. *)
Definition cond_holds (m : t) (c : path * string) : bool :=
  match schema c.1 with
  | Some get => bool_decide (get m = Some c.2)
  | None => false
  end.

(** What [strictQuery] leaves of a clause: the conditions on names outside
    the schema are taken out. *)
Definition strip (env : Env) (c : clause) : clause :=
  if strictQuery env
  then List.filter (λ x, bool_decide (is_Some (schema x.1))) c
  else c.

(** The clauses of the [$or] after the cast (mongoose 8): a clause that
    had conditions and has lost them all is taken out of the array. *)
Definition strip_or (env : Env) (q : filter) : filter :=
  omap (λ c, match strip env c, c with
             | [], _ :: _ => None
             | c', _ => Some c'
             end) q.

(** Whether a document satisfies a cast filter. An [$or] left without
    clauses is deleted from the filter, which then holds of every
    document. *)
Definition matches (env : Env) (q : filter) (m : t) : bool :=
  match strip_or env q with
  | [] => true
  | q' => existsb (λ c, forallb (cond_holds m) c) q'
  end.

(** [.sort({ timestamp: 1 })] and [.sort({ timestamp: -1 })]. *)
Inductive order := ascending | descending.

Definition before (o : order) (m1 m2 : t) : Prop :=
  match o with
  | ascending => timestamp m1 ≤ timestamp m2
  | descending => timestamp m2 ≤ timestamp m1
  end.

#[global] Instance before_dec o m1 m2 : Decision (before o m1 m2).
Proof. destruct o; simpl; apply _. Defined.

(** [Message.find(q).sort({ timestamp: o })]. *)
Definition find (env : Env) (coll : list t) (q : filter) (o : order) : Exc (list t) :=
  q' ← cast q;
  mongo_read env (Ok (merge_sort (before o) (List.filter (matches env q') coll))).

(** [Message.deleteMany(q)]: the collection that is left, and
    [deletedCount]. *)
Definition deleteMany (env : Env) (coll : list t) (q : filter) : Exc (list t * nat) :=
  q' ← cast q;
  mongo_write env
    (Ok (List.filter (λ m, negb (matches env q' m)) coll,
         length (List.filter (matches env q') coll))).

End Message.

(** Both orders on [timestamp] are total preorders, as a sort needs. *)
#[global] Instance before_trans o : Transitive (Message.before o).
Proof. intros x y z. destruct o; simpl; lia. Qed.

#[global] Instance before_total o : Total (Message.before o).
Proof. intros x y. destruct o; simpl; lia. Qed.

Record Db := {
  users : list User.t;
  messages : list Message.t;
}.

(** ** Collaborators outside the program *)

Module Jwt.
(** The payload [signup] and [login] sign: [{ email, userId }]. *)
Record payload := { email : string; userId : string }.
End Jwt.

(** [jwt.verify(token, secret)]: the payload of a token whose signature and
    expiry are good, [None] where the callback gets an [err]. *)
Class TokenVerifier := jwt_verify : string → string → option Jwt.payload.

(** [cookie.parse(header)]: the cookies of a [Cookie] header by name. *)
Class CookieParser := cookie_parse : string → gmap string string.

(** ** The socket server *)

(** [socket.id]: generated by the engine for each connection, never an
    empty string, hence always truthy. *)
Abbreviation SocketId := N.

Module Socket.

(** The payload of a [sendMessage] event, for payloads whose properties
    are strings where they are there. (socket.io hands the handler
    whatever JSON value the client sent.) *)
Record messageData := {
  sender : option string;
  recipient : option string;
  content : option string;
  messageType : option string;
}.

(** [io.to(id).emit("receiveMessage", m)]. *)
Record emitted := receiveMessage { to : SocketId; message : Message.t }.

#[global] Instance emitted_eq_dec : EqDecision emitted.
Proof. solve_decision. Defined.

(** How a run of the [sendMessage] handler ends. *)
Inductive outcome :=
  | Missing_message_fields           (* logged, then [return] *)
  | Unhandled (e : error)            (* thrown outside the [try] *)
  | Error_saving_message (e : error) (* caught and logged *)
  | Saved (m : Message.t).

(** The state the handlers share: the global [userMap], the database,
    and for each live socket the [userId] its handlers have closed
    over. [userMap] is a plain object used as a map; its keys are user
    ids, strings of 24 hexadecimal digits, none of which is the name of a
    property an object inherits. *)
Record server := {
  userMap : gmap string SocketId;
  sockets : gmap SocketId string;
  db : Db;
}.

(** How the handshake of [io.use] ends: [next(new Error(msg))] or
    [next()] with [socket.userId] set. *)
Inductive handshake :=
  | Refused (msg : string)
  | Accepted (userId : string).

(** The emits after a successful [save]: to the recipient's socket, then
    to the sender's, each only if [userMap] has an entry. *)
Definition fanout (userMap : gmap string SocketId) (recipient sender : string)
    (newMessage : Message.t) : list emitted :=
  (if userMap !! recipient is Some id then [receiveMessage id newMessage] else [])
  ++ (if userMap !! sender is Some id then [receiveMessage id newMessage] else []).

(** [socket.on("sendMessage", async (messageData) => ...)]. [userMap] is
    read once [save] has resolved. *)
Definition sendMessage (env : Env) (userMap : gmap string SocketId) (db : Db)
    (data : messageData) : Db * list emitted * outcome :=
  match sender data, recipient data, content data with
  | Some sender, Some recipient, Some content =>
    if Js.falsy_string sender || Js.falsy_string recipient || Js.falsy_string content
    then (db, [], Missing_message_fields)
    else
      match User.findById env (users db) sender with
      | Throw e => (db, [], Unhandled e)
      | Ok senderObject =>
        match User.findById env (users db) recipient with
        | Throw e => (db, [], Unhandled e)
        | Ok recipientObject =>
          let newMessage :=
            Message.new env senderObject recipientObject content (messageType data) in
          match Message.save env (messages db) newMessage with
          | Ok coll =>
            ({| users := users db; messages := coll |},
             fanout userMap recipient sender newMessage,
             Saved newMessage)
          | Throw e => (db, [], Error_saving_message e)
          end
        end
      end
  | _, _, _ => (db, [], Missing_message_fields)
  end.

Section handlers.
Context {verifier : TokenVerifier} {parser : CookieParser}.

(** The middleware of [io.use]. *)
Definition authenticate (env : Env) (cookie_header : option string) : handshake :=
  let cookies := Js.or_else cookie_header "" in
  let parsedCookie := cookie_parse cookies in
  match parsedCookie !! "jwt" with
  | Some token =>
    if Js.falsy_string token then Refused "Authentication error, no token"
    else
      match jwt_verify token (SECRET_KEY env) with
      | None => Refused "Authentication error, couldn't verify token"
      | Some payload => Accepted (Jwt.userId payload)
      end
  | None => Refused "Authentication error, no token"
  end.

(** [io.on("connection", (socket) => ...)]: the socket is entered under
    its user, and its handlers close over [userId]. *)
Definition connection (id : SocketId) (userId : string) (s : server) : server :=
  {| userMap := <[userId := id]> (userMap s);
     sockets := <[id := userId]> (sockets s);
     db := db s |}.

(** [socket.on("disconnect", ...)] of a socket whose handlers closed
    over [userId]. *)
Definition disconnect (id : SocketId) (userId : string) (s : server) : server :=
  {| userMap := delete userId (userMap s);
     sockets := delete id (sockets s);
     db := db s |}.

(** What reaches the server. *)
Inductive event :=
  | Connect (id : SocketId) (cookie_header : option string)
  | Disconnect (id : SocketId)
  | SendMessage (id : SocketId) (data : messageData).

(** One event, handled to its end. A socket that never got through the
    handshake has no handlers, so its events do nothing. *)
Definition step (env : Env) (s : server) (e : event) : server * list emitted :=
  match e with
  | Connect id cookie_header =>
    match authenticate env cookie_header with
    | Refused _ => (s, [])
    | Accepted userId => (connection id userId s, [])
    end
  | Disconnect id =>
    match sockets s !! id with
    | Some userId => (disconnect id userId s, [])
    | None => (s, [])
    end
  | SendMessage id data =>
    match sockets s !! id with
    | Some _ =>
      let '(db', out, _) := sendMessage env (userMap s) (db s) data in
      ({| userMap := userMap s; sockets := sockets s; db := db' |}, out)
    | None => (s, [])
    end
  end.

(** A run: each event with the environment it meets. *)
Fixpoint run (s : server) (es : list (Env * event)) : server * list emitted :=
  match es with
  | [] => (s, [])
  | (env, e) :: es' =>
    let '(s', out) := step env s e in
    let '(s'', out') := run s' es' in
    (s'', out ++ out')
  end.

(** The engine gives a new connection an id no live socket has. *)
Definition fresh (s : server) (e : event) : Prop :=
  match e with
  | Connect id _ => sockets s !! id = None
  | _ => True
  end.

(** The states the server gets into from [s0]. *)
Inductive reachable (s0 : server) : server → Prop :=
  | reachable_start : reachable s0 s0
  | reachable_step env s e :
      reachable s0 s → fresh s e → reachable s0 (step env s e).1.

End handlers.

(** The server before any event. *)
Definition initial (db : Db) : server :=
  {| userMap := ∅; sockets := ∅; db := db |}.

(** Every entry of [userMap] is a live socket of that user. *)
Definition presence_live (s : server) : Prop :=
  ∀ userId id, userMap s !! userId = Some id → sockets s !! id = Some userId.

End Socket.

(** ** The endpoints *)

Module Api.

(** What [res.json] is given in the endpoints below. *)
Inductive json :=
  | json_message (message : string)            (* { message } *)
  | json_array_empty                           (* [] *)
  | json_contacts (contacts : list User.contact)   (* { contacts } *)
  | json_messages (messages : list Message.t).     (* { messages } *)

(** [res.status(code).json(body)]. *)
Record response := { status : nat; body : json }.

Definition server_or_database_issue : response :=
  {| status := 500; body := json_message "Server or database issue" |}.

(** [doc.prop?._id] of a message document: the ObjectId object the
    property holds, [undefined] if it holds none. *)
Definition ref_id (msg : Message.t) (prop : string) (p : Message.path) : Js.value :=
  match Message.schema p with
  | Some get => if get msg is Some hex then Js.oid (Message._id msg) prop hex else Js.undefined
  | None => Js.undefined
  end.

(** [doc.prop?.toString()]. *)
Definition ref_toString (msg : Message.t) (p : Message.path) : Js.value :=
  match Message.schema p with
  | Some get => if get msg is Some hex then Js.str hex else Js.undefined
  | None => Js.undefined
  end.

(** The callback of [messages.forEach] in [getContacts]; [userIds] is
    the [Set] it fills. *)
Definition collect (currentUserId : string) (userIds : list Js.value)
    (msg : Message.t) : Exc (list Js.value) :=
  let sender_id := ref_id msg "sender" Message.p_sender in
  self ← call_method currentUserId "tostring";
  let userIds :=
    if negb (Js.strict_equal sender_id self) then Js.Set_add sender_id userIds
    else userIds in
  let receiver_id := ref_id msg "receiver" Message.p_receiver in
  self' ← call_method currentUserId "tostring";
  Ok (if negb (Js.strict_equal receiver_id self') then Js.Set_add receiver_id userIds
      else userIds).

(** [messages.find(msg => msg.sender?.toString() === id ||
    msg.receiver?.toString() === id)]. *)
Definition lastMessage (messages : list Message.t) (a : User.contact) : option Message.t :=
  List.find
    (λ msg, Js.strict_equal (ref_toString msg Message.p_sender) (Js.str (User.c_id a))
            || Js.strict_equal (ref_toString msg Message.p_receiver) (Js.str (User.c_id a)))
    messages.

(** [m.timestamp], which throws when [m] is [undefined]. *)
Definition timestamp_of (m : option Message.t) : Exc Z :=
  match m with
  | Some m => Ok (Message.timestamp m)
  | None => Throw (TypeError "Cannot read properties of undefined")
  end.

(** The comparator given to [users.sort]. *)
Definition compare (messages : list Message.t) (a b : User.contact) : Exc Z :=
  let lastMessageA := lastMessage messages a in
  let lastMessageB := lastMessage messages b in
  tb ← timestamp_of lastMessageB;
  ta ← timestamp_of lastMessageA;
  Ok (tb - ta).

(** [arr.sort(cmp)] with a comparator that may throw, as a stable
    insertion sort; which pairs an engine compares is its own choice. *)
Fixpoint sort_insert {A} (cmp : A → A → Exc Z) (x : A) (sorted : list A) : Exc (list A) :=
  match sorted with
  | [] => Ok [x]
  | y :: ys =>
    c ← cmp y x;
    if c <=? 0 then (ys' ← sort_insert cmp x ys; Ok (y :: ys'))
    else Ok (x :: y :: ys)
  end.

Definition sort {A} (cmp : A → A → Exc Z) (arr : list A) : Exc (list A) :=
  forEach (λ sorted x, sort_insert cmp x sorted) arr [].

(** The [try] block of [getContacts], after the check of the user id. *)
Definition getContacts_try (env : Env) (db : Db) (currentUserId : string) : Exc response :=
  messages ← Message.find env (messages db)
    [[(Message.p_sender, currentUserId)]; [(Message.p_receiver, currentUserId)]]
    Message.descending;
  if bool_decide (length messages = 0%nat)
  then Ok {| status := 200; body := json_array_empty |}
  else
    userIds ← forEach (collect currentUserId) messages [];
    let uniqueUserIds := userIds in
    users ← User.find_in env (users db) uniqueUserIds;
    sortedContacts ← sort (compare messages) users;
    Ok {| status := 200; body := json_contacts sortedContacts |}.

(** [getContacts]: [GET /api/contacts/get-contacts-for-list]. *)
Definition getContacts (env : Env) (db : Db) (userId : string) : response :=
  let currentUserId := userId in
  if Js.falsy_string currentUserId
  then {| status := 400; body := json_message "No user ID found in token" |}
  else
    match getContacts_try env db currentUserId with
    | Ok res => res
    | Throw _ => server_or_database_issue
    end.

(** The filter of [deleteDm] and [getMessages]: the pair as sender and
    recipient, in either direction. *)
Definition between (a b : string) : Message.filter :=
  [[(Message.p_sender, a); (Message.p_recipient, b)];
   [(Message.p_sender, b); (Message.p_recipient, a)]].

(** [deleteDm]: [DELETE /api/contacts/delete-dm/:dmId]. *)
Definition deleteDm (env : Env) (db : Db) (userId : string) (dmId : option string)
    : Db * response :=
  match dmId with
  | Some dmId =>
    if Js.falsy_string dmId
    then (db, {| status := 400; body := json_message "Missing or invalid dmId" |})
    else
      match Message.deleteMany env (messages db) (between userId dmId) with
      | Ok (coll, deletedCount) =>
        ({| users := users db; messages := coll |},
         {| status := 200; body := json_message "DM deleted successfully" |})
      | Throw _ => (db, server_or_database_issue)
      end
  | None => (db, {| status := 400; body := json_message "Missing or invalid dmId" |})
  end.

(** [getMessages]: [POST /api/messages/get-messages], [id] being
    [req.body.id] for a body that has a string there, or nothing. *)
Definition getMessages (env : Env) (db : Db) (userId : string) (id : option string)
    : response :=
  match id with
  | Some contactId =>
    if Js.falsy_string contactId
    then {| status := 400; body := json_message "Missing one or both user IDs" |}
    else
      match Message.find env (messages db) (between userId contactId) Message.ascending with
      | Ok messages => {| status := 200; body := json_messages messages |}
      | Throw _ => server_or_database_issue
      end
  | None => {| status := 400; body := json_message "Missing one or both user IDs" |}
  end.

Section routes.
Context {verifier : TokenVerifier}.

(** [verifyToken]: the middleware before every endpoint above. [next]
    is the endpoint, given [req.userId]. *)
Definition verifyToken {A} (env : Env) (cookies_jwt : option string)
    (reject : response → A) (next : string → A) : A :=
  match cookies_jwt with
  | Some token =>
    if Js.falsy_string token
    then reject {| status := 401; body := json_message "Not authenticated" |}
    else
      match jwt_verify token (SECRET_KEY env) with
      | None => reject {| status := 403; body := json_message "Invalid or expired token." |}
      | Some payload => next (Jwt.userId payload)
      end
  | None => reject {| status := 401; body := json_message "Not authenticated" |}
  end.

(** [contactRoutes.delete("/delete-dm/:dmId", verifyToken, deleteDm)]. *)
Definition delete_dm (env : Env) (db : Db) (cookies_jwt dmId : option string)
    : Db * response :=
  verifyToken env cookies_jwt (λ res, (db, res)) (λ userId, deleteDm env db userId dmId).

(** [app.post("/api/messages/get-messages", verifyToken, getMessages)]. *)
Definition get_messages (env : Env) (db : Db) (cookies_jwt id : option string) : response :=
  verifyToken env cookies_jwt (λ res, res) (λ userId, getMessages env db userId id).

(** [contactRoutes.get("/get-contacts-for-list", verifyToken, getContacts)]. *)
Definition get_contacts_for_list (env : Env) (db : Db) (cookies_jwt : option string)
    : response :=
  verifyToken env cookies_jwt (λ res, res) (λ userId, getContacts env db userId).

End routes.

End Api.

(** ** The other endpoints *)

(** [bcrypt.hash(password, rounds)] and [bcrypt.compare(password, hash)];
    the salt [hash] draws is the instance's. *)
Class PasswordHasher := {
  bcrypt_hash : string → nat → string;
  bcrypt_compare : string → string → bool;
}.

(** [jwt.sign(payload, secret, { expiresIn: '1h' })]. *)
Class TokenSigner := jwt_sign : Jwt.payload → string → string.

Module Http.

(** [res.cookie('jwt', token, { secure: true, sameSite: 'None', maxAge,
    partitioned })] and [res.clearCookie('jwt', ...)]. *)
Inductive set_cookie :=
  | cookie_jwt (token : string) (maxAge : Z) (partitioned : bool)
  | clearCookie_jwt.

(** What [res.json] (or, last, [res.send]) is given. *)
Inductive answer :=
  | message (message : string)                 (* { message } *)
  | login_successful (token : string)          (* { message: 'Login successful', token } *)
  | user_info (id email password : string) (color firstName lastName : option string)
      (profileSetup : bool)
  | found (contacts : list User.t)             (* { contacts }, whole documents *)
  | contacts (contacts : list User.contact)    (* { contacts }, projected *)
  | messages (messages : list Message.t)       (* { messages } *)
  | array_empty                                (* [] *)
  | text (text : string).

(** A response: status, body, and the cookie header set on the way. *)
Record reply := { status : nat; body : answer; cookie : option set_cookie }.

Definition plain (status : nat) (body : answer) : reply :=
  {| status := status; body := body; cookie := None |}.

(** The responses of the endpoints modelled in [Api], which set no
    cookie. *)
Definition of_response (res : Api.response) : reply :=
  plain (Api.status res)
    match Api.body res with
    | Api.json_message m => message m
    | Api.json_array_empty => array_empty
    | Api.json_contacts cs => contacts cs
    | Api.json_messages ms => messages ms
    end.

End Http.

Module Auth.

Section endpoints.
Context {hasher : PasswordHasher} {signer : TokenSigner}.

(** [signup]: [POST /api/auth/signup], for a body whose [email] and
    [password] are strings where they are there. The cookie is set before
    the user is saved, and stays on the response if the save throws. *)
Definition signup (env : Env) (db : Db) (email password : option string)
    : Db * Http.reply :=
  let issue := Http.plain 500 (Http.message "Server or database issue") in
  match email, password with
  | Some email, Some password =>
    if Js.falsy_string email || Js.falsy_string password
    then (db, Http.plain 400 (Http.message "Email and password are required"))
    else
      match User.findOne env (users db) email with
      | Throw _ => (db, issue)
      | Ok (Some existingUser) =>
        (db, Http.plain 409 (Http.message "The email is already in use"))
      | Ok None =>
        let hashedPassword := bcrypt_hash password 10 in
        let newUser := User.new env email hashedPassword in
        let token :=
          jwt_sign {| Jwt.email := email; Jwt.userId := User._id newUser |} (SECRET_KEY env) in
        let cookie := Some (Http.cookie_jwt token (60 * 60 * 1000) true) in
        match User.save env (users db) newUser with
        | Ok users' =>
          ({| users := users'; messages := messages db |},
           {| Http.status := 201;
              Http.body := Http.message "User registered successfully";
              Http.cookie := cookie |})
        | Throw _ =>
          (db, {| Http.status := 500;
                  Http.body := Http.message "Server or database issue";
                  Http.cookie := cookie |})
        end
      end
  | _, _ => (db, Http.plain 400 (Http.message "Email and password are required"))
  end.

(** [login]: [POST /api/auth/login], for a body whose [email] and
    [password] are strings where they are there. *)
Definition login (env : Env) (db : Db) (email password : option string) : Http.reply :=
  match email, password with
  | Some email, Some password =>
    if Js.falsy_string email || Js.falsy_string password
    then Http.plain 400 (Http.message "Missing email or password")
    else
      match User.findOne env (users db) email with
      | Throw _ => Http.plain 500 (Http.message "Server or database issue")
      | Ok None => Http.plain 404 (Http.message "No user found with the given email")
      | Ok (Some user) =>
        let isPasswordValid := bcrypt_compare password (User.password user) in
        if negb isPasswordValid
        then Http.plain 400 (Http.message "Invalid password")
        else
          let token :=
            jwt_sign {| Jwt.email := email; Jwt.userId := User._id user |} (SECRET_KEY env) in
          {| Http.status := 200;
             Http.body := Http.login_successful token;
             Http.cookie := Some (Http.cookie_jwt token (60 * 60 * 1000) false) |}
      end
  | _, _ => Http.plain 400 (Http.message "Missing email or password")
  end.

End endpoints.

(** [logout]: [POST /api/auth/logout]; no token is asked for. *)
Definition logout : Http.reply :=
  {| Http.status := 200; Http.body := Http.message "Logout successful";
     Http.cookie := Some Http.clearCookie_jwt |}.

(** [userinfo]: [GET /api/auth/userinfo], behind [verifyToken]. The
    answer says [profileSetup: true] whatever the document says. *)
Definition userinfo (env : Env) (db : Db) (userId : string) : Http.reply :=
  match User.findById env (users db) userId with
  | Ok (Some currentUser) =>
    Http.plain 200
      (Http.user_info (User._id currentUser) (User.email currentUser)
         (User.password currentUser) (User.color currentUser)
         (User.firstName currentUser) (User.lastName currentUser) true)
  | Ok None => Http.plain 404 (Http.message "User not found")
  | Throw _ => Http.plain 500 (Http.message "Server error")
  end.

(** [currentUser.email], which throws when [currentUser] is [null]. *)
Definition email_of (currentUser : option User.t) : Exc string :=
  match currentUser with
  | Some u => Ok (User.email u)
  | None => Throw (TypeError "Cannot read properties of null")
  end.

(** The [try] block of [updateprofile]: the new collection and the
    response. The user is looked up, and its email read, before the
    fields are checked. *)
Definition updateprofile_try (env : Env) (db : Db) (userId : string)
    (color firstName lastName : option string) : Exc (Db * Http.reply) :=
  currentUser ← User.findById env (users db) userId;
  email ← email_of currentUser;
  match firstName, lastName with
  | Some firstName, Some lastName =>
    if Js.falsy_string firstName || Js.falsy_string lastName
    then Ok (db, Http.plain 400 (Http.message "Missing required fields"))
    else
      '(user, users') ← User.findOneAndUpdate env (users db) email firstName lastName color;
      if user is Some _
      then Ok ({| users := users'; messages := messages db |},
               Http.plain 200 (Http.message "Profile successfully updated"))
      else Ok (db, Http.plain 404 (Http.message "User not found"))
  | _, _ => Ok (db, Http.plain 400 (Http.message "Missing required fields"))
  end.

(** [updateprofile]: [POST /api/auth/update-profile], behind
    [verifyToken]. *)
Definition updateprofile (env : Env) (db : Db) (userId : string)
    (color firstName lastName : option string) : Db * Http.reply :=
  match updateprofile_try env db userId color firstName lastName with
  | Ok r => r
  | Throw _ => (db, Http.plain 500 (Http.message "Server or database issue"))
  end.

End Auth.

Module Contacts.

(** [search]: [POST /api/contacts/search], behind [verifyToken]. *)
Definition search {engine : RegexEngine} (env : Env) (db : Db) (userId : string)
    (searchTerm : option string) : Http.reply :=
  match searchTerm with
  | Some query =>
    if Js.falsy_string query
    then Http.plain 400 (Http.message "Search query is required")
    else
      match User.find_matching env (users db) userId query with
      | Ok contacts => Http.plain 200 (Http.found contacts)
      | Throw _ => Http.plain 500 (Http.message "Server or database issue")
      end
  | None => Http.plain 400 (Http.message "Search query is required")
  end.

(** [allContacts]: [GET /api/contacts/all-contacts], behind
    [verifyToken]. *)
Definition allContacts (env : Env) (db : Db) (userId : string) : Http.reply :=
  let currentUserId := userId in
  match User.find_others env (users db) currentUserId with
  | Ok users => Http.plain 200 (Http.contacts users)
  | Throw _ => Http.plain 500 (Http.message "Server or database issue")
  end.

(** [empty], the placeholder of [GET /api/channel/get-user-channels]. *)
Definition empty : Http.reply := Http.plain 200 (Http.message "not implemented yet").

End Contacts.

(** ** The application: routes and sockets on one state *)

Module App.

(** The requests the routers tell apart; [unmatched] is every other
    method and path, among them [DELETE /api/contacts/delete-dm/] without
    an id, which the path of the route does not match. *)
Inductive request :=
  | signup (email password : option string)
  | login (email password : option string)
  | logout
  | userinfo (cookies_jwt : option string)
  | update_profile (cookies_jwt color firstName lastName : option string)
  | search (cookies_jwt searchTerm : option string)
  | get_contacts_for_list (cookies_jwt : option string)
  | all_contacts (cookies_jwt : option string)
  | delete_dm (cookies_jwt : option string) (dmId : string)
  | get_messages (cookies_jwt id : option string)
  | get_user_channels (cookies_jwt : option string)
  | unmatched.

(** What reaches the application. *)
Inductive event :=
  | on_socket (e : Socket.event)
  | on_request (r : request).

Section application.
Context {verifier : TokenVerifier} {parser : CookieParser}
        {hasher : PasswordHasher} {signer : TokenSigner} {engine : RegexEngine}.

(** [verifyToken] in front of an endpoint that answers with an
    [Http.reply] and may change the database. *)
Definition protected (env : Env) (db : Db) (cookies_jwt : option string)
    (endpoint : string → Db * Http.reply) : Db * Http.reply :=
  Api.verifyToken env cookies_jwt (λ res, (db, Http.of_response res)) endpoint.

(** The routers of index.js, the catch-all route last. *)
Definition handle (env : Env) (db : Db) (r : request) : Db * Http.reply :=
  match r with
  | signup email password => Auth.signup env db email password
  | login email password => (db, Auth.login env db email password)
  | logout => (db, Auth.logout)
  | userinfo cookies_jwt =>
    protected env db cookies_jwt (λ userId, (db, Auth.userinfo env db userId))
  | update_profile cookies_jwt color firstName lastName =>
    protected env db cookies_jwt
      (λ userId, Auth.updateprofile env db userId color firstName lastName)
  | search cookies_jwt searchTerm =>
    protected env db cookies_jwt (λ userId, (db, Contacts.search env db userId searchTerm))
  | get_contacts_for_list cookies_jwt =>
    (db, Http.of_response (Api.get_contacts_for_list env db cookies_jwt))
  | all_contacts cookies_jwt =>
    protected env db cookies_jwt (λ userId, (db, Contacts.allContacts env db userId))
  | delete_dm cookies_jwt dmId =>
    if Js.falsy_string dmId then (db, Http.plain 404 (Http.text "Not Found"))
    else
      let '(db', res) := Api.delete_dm env db cookies_jwt (Some dmId) in
      (db', Http.of_response res)
  | get_messages cookies_jwt id =>
    (db, Http.of_response (Api.get_messages env db cookies_jwt id))
  | get_user_channels cookies_jwt =>
    protected env db cookies_jwt (λ _, (db, Contacts.empty))
  | unmatched => (db, Http.plain 404 (Http.text "Not Found"))
  end.

(** One event: a socket event as in [Socket.step], or a request, which
    sees and changes the database only. *)
Definition step (env : Env) (s : Socket.server) (e : event)
    : Socket.server * list Socket.emitted * option Http.reply :=
  match e with
  | on_socket e =>
    let '(s', out) := Socket.step env s e in (s', out, None)
  | on_request r =>
    let '(db', res) := handle env (Socket.db s) r in
    ({| Socket.userMap := Socket.userMap s; Socket.sockets := Socket.sockets s;
        Socket.db := db' |}, [], Some res)
  end.

(** The engine gives a new connection an id no live socket has. *)
Definition fresh (s : Socket.server) (e : event) : Prop :=
  match e with
  | on_socket e => Socket.fresh s e
  | on_request _ => True
  end.

(** The states the application gets into from [s0]. *)
Inductive reachable (s0 : Socket.server) : Socket.server → Prop :=
  | reachable_start : reachable s0 s0
  | reachable_step env s e :
      reachable s0 s → fresh s e → reachable s0 (step env s e).1.1.

End application.

End App.

(** ** Sample data *)

Module Sample.

Definition A : string := "aaaaaaaaaaaaaaaaaaaaaaaa".
Definition B : string := "bbbbbbbbbbbbbbbbbbbbbbbb".
Definition C : string := "cccccccccccccccccccccccc".

Definition user (id name : string) : User.t :=
  {| User._id := id; User.email := String.append name "@example.com";
     User.password := "$2b$10$hash"; User.firstName := Some name;
     User.lastName := None; User.color := None; User.profileSetup := false |}.

Definition everyone : list User.t := [user A "a"; user B "b"; user C "c"].

Definition text (id from to body : string) (t : Z) : Message.t :=
  {| Message._id := id; Message.sender := Some from; Message.recipient := Some to;
     Message.content := body; Message.messageType := Some "text";
     Message.timestamp := t |}.

Definition env (strict : bool) (t : Z) (id : string) : Env :=
  {| SECRET_KEY := "secret"; strictQuery := strict; mongo_reads := true;
     mongo_writes := true; now := t; fresh_id := id |}.

Definition id1 : string := "000000000000000000000001".
Definition id2 : string := "000000000000000000000002".
Definition id3 : string := "000000000000000000000003".

(** A wrote to B at 1000 and to C at 2000. *)
Definition two_chats : Db :=
  {| users := everyone;
     messages := [text id1 A B "hi B" 1000; text id2 A C "hi C" 2000] |}.

Definition nobody_wrote : Db := {| users := everyone; messages := [] |}.

Definition say (from to body : string) : Socket.messageData :=
  {| Socket.sender := Some from; Socket.recipient := Some to;
     Socket.content := Some body; Socket.messageType := Some "text" |}.

(** A verifier that knows one token for each of A and B. *)
Definition verifier : TokenVerifier := λ token secret,
  if bool_decide (secret = "secret") then
    if bool_decide (token = "token-of-a")
    then Some {| Jwt.email := "a@example.com"; Jwt.userId := A |}
    else if bool_decide (token = "token-of-b")
    then Some {| Jwt.email := "b@example.com"; Jwt.userId := B |}
    else None
  else None.

(** A parser for headers that hold the [jwt] cookie alone. *)
Definition parser : CookieParser := λ header,
  if String.prefix "jwt=" header
  then {[ "jwt" := String.substring 4 (String.length header - 4) header ]}
  else ∅.

(** A hasher that marks what it has hashed. *)
Definition hasher : PasswordHasher :=
  {| bcrypt_hash := λ password _, String.append "hashed:" password;
     bcrypt_compare := λ password hash,
       bool_decide (hash = String.append "hashed:" password) |}.

(** The part of a string before the first [c], and the part after it. *)
Fixpoint cut (c : ascii) (s : string) : option (string * string) :=
  match s with
  | EmptyString => None
  | String a s' =>
    if bool_decide (a = c) then Some (EmptyString, s')
    else if cut c s' is Some (l, r) then Some (String a l, r) else None
  end.

(** A signer that writes the secret, the user id and the email one after
    the other, and the verifier that reads them back. *)
Definition signer : TokenSigner := λ payload secret,
  String.append secret
    (String.append "/" (String.append (Jwt.userId payload)
      (String.append "/" (Jwt.email payload)))).

Definition reader : TokenVerifier := λ token secret,
  match cut "/" token with
  | Some (key, rest) =>
    if bool_decide (key = secret) then
      if cut "/" rest is Some (userId, email)
      then Some {| Jwt.email := email; Jwt.userId := userId |}
      else None
    else None
  | None => None
  end.

Definition lower (s : string) : string := string_map to_lower s.

(** Whether [p] is a part of [s]. *)
Fixpoint contains (p s : string) : bool :=
  String.prefix p s || (if s is String _ s' then contains p s' else false).

(** An engine for patterns without special characters: the pattern has
    to be a part of the text, whatever the case. *)
Definition engine : RegexEngine := λ pattern,
  Some (λ text, contains (lower pattern) (lower text)).

Definition id4 : string := "000000000000000000000004".

Definition D : string := "dddddddddddddddddddddddd".

(** D, who has signed up with the password "pw" and set no profile. *)
Definition dave : User.t :=
  {| User._id := D; User.email := "d@example.com"; User.password := "hashed:pw";
     User.firstName := None; User.lastName := None; User.color := None;
     User.profileSetup := false |}.

Definition with_dave : Db :=
  {| users := everyone ++ [dave]; messages := messages two_chats |}.

End Sample.

(** ** The notions the properties are stated with *)

(** A reference of a message that is the [_id] of a user in the database. *)
Definition valid_ref (db : Db) (ref : option ObjectId) : Prop :=
  ∃ u, u ∈ users db ∧ ref = Some (User._id u).

(** Every stored message refers to two users of the database. *)
Definition refs_valid (db : Db) : Prop :=
  ∀ m, m ∈ messages db →
    valid_ref db (Message.sender m) ∧ valid_ref db (Message.recipient m).

(** An identity of an event that names a user in the database. *)
Definition resolves (db : Db) (identity : option string) : Prop :=
  ∃ s u, identity = Some s ∧ u ∈ users db ∧ castObjectId s = Ok (User._id u).

(** A message of the conversation of [u] and [c]: one of them is its
    sender, the other its recipient. *)
Definition conversation (u c : ObjectId) (m : Message.t) : Prop :=
  (Message.sender m = Some u ∧ Message.recipient m = Some c)
  ∨ (Message.sender m = Some c ∧ Message.recipient m = Some u).

#[global] Instance conversation_dec u c m : Decision (conversation u c m).
Proof. unfold conversation. apply _. Defined.

(** The other side of a message of [u], if there is one: the recipient
    of a message [u] sent, the sender of a message [u] received. *)
Definition counterpart (u : ObjectId) (m : Message.t) : option ObjectId :=
  if bool_decide (Message.sender m = Some u) then Message.recipient m
  else if bool_decide (Message.recipient m = Some u) then Message.sender m
  else None.

(** The contact list the specification describes for [u]: the messages of
    [u], latest first; their counterparts other than [u], each once, in
    the order of their latest message. *)
Definition contacts_by_recency (u : ObjectId) (coll : list Message.t) : list ObjectId :=
  remove_dups
    (List.filter (λ c, negb (bool_decide (c = u)))
       (omap (counterpart u) (merge_sort (Message.before Message.descending) coll))).

(** No two users share an [_id], and no two an [email]. *)
Definition users_wf (db : Db) : Prop :=
  NoDup (User._id <$> users db) ∧ NoDup (User.email <$> users db).

(** What identifies an account and lets its owner in. *)
Definition account (u : User.t) : string * string * string :=
  (User._id u, User.email u, User.password u).

(** The [jwt] cookie of a request to a route behind [verifyToken];
    [None] for the routes without it and for the request no route
    matches. *)
Definition jwt_of (r : App.request) : option (option string) :=
  match r with
  | App.userinfo c | App.update_profile c _ _ _ | App.search c _
  | App.get_contacts_for_list c | App.all_contacts c | App.get_messages c _
  | App.get_user_channels c => Some c
  | App.delete_dm c dmId => if Js.falsy_string dmId then None else Some c
  | App.signup _ _ | App.login _ _ | App.logout | App.unmatched => None
  end.

(** What the connection [id] is sent by a list of emits, in order. *)
Definition received (id : SocketId) (out : list Socket.emitted) : list Message.t :=
  Socket.message <$> List.filter (λ x, bool_decide (Socket.to x = id)) out.

(** * Properties *)

(** ** Helper lemmas on the primitives *)

Lemma bind_Ok_inv {A B} (m : Exc A) (f : A → Exc B) b :
  m ≫= f = Ok b → ∃ a, m = Ok a ∧ f a = Ok b.
Proof. destruct m as [a|e]; simpl; [eauto | discriminate]. Qed.

Lemma castObjectId_truthy s o : castObjectId s = Ok o → Js.falsy_string s = false.
Proof. destruct s; [discriminate | done]. Qed.

Lemma findById_Ok_inv env us id r :
  User.findById env us id = Ok r →
  mongo_reads env = true ∧
  ∃ o, castObjectId id = Ok o ∧ r = List.find (λ u, bool_decide (User._id u = o)) us.
Proof.
  unfold User.findById. intros (o & Ho & Hr)%bind_Ok_inv.
  unfold mongo_read in Hr. destruct (mongo_reads env); [|discriminate].
  split; [done|]. exists o. split; [done|]. congruence.
Qed.

Lemma findById_Some_inv env us id u :
  User.findById env us id = Ok (Some u) →
  u ∈ us ∧ castObjectId id = Ok (User._id u).
Proof.
  intros (_ & o & Ho & Hr)%findById_Ok_inv. symmetry in Hr.
  apply find_some in Hr as [Hin Heq]. apply bool_decide_eq_true in Heq.
  split; [by apply list_elem_of_In | congruence].
Qed.

Lemma save_Ok_inv env coll m coll' :
  Message.save env coll m = Ok coll' →
  coll' = coll ++ [m] ∧ is_Some (Message.sender m) ∧ is_Some (Message.recipient m)
  ∧ mongo_writes env = true.
Proof.
  unfold Message.save, Message.validate, mongo_write.
  repeat case_bool_decide; simpl; try discriminate.
  destruct (Js.falsy_string _); simpl; [discriminate|].
  destruct (mongo_writes env); [|discriminate]. intros [= <-]. done.
Qed.

(** ** The handler of [sendMessage] *)

(** A run that does not end in [Saved] leaves the database as it was and
    emits nothing. *)
Lemma sendMessage_not_Saved env um db data db' out o :
  Socket.sendMessage env um db data = (db', out, o) →
  (∀ m, o ≠ Socket.Saved m) → db' = db ∧ out = [].
Proof.
  unfold Socket.sendMessage. intros Hrun Hno.
  repeat (case_match; simplify_eq; try done).
  exfalso. by eapply Hno.
Qed.

(** What a run that ends in [Saved] went through. *)
Lemma sendMessage_Saved_inv env um db data db' out m :
  Socket.sendMessage env um db data = (db', out, Socket.Saved m) →
  ∃ s r c us ur,
    Socket.sender data = Some s ∧ Socket.recipient data = Some r
    ∧ Socket.content data = Some c
    ∧ User.findById env (users db) s = Ok (Some us)
    ∧ User.findById env (users db) r = Ok (Some ur)
    ∧ m = Message.new env (Some us) (Some ur) c (Socket.messageType data)
    ∧ Message.save env (messages db) m = Ok (messages db ++ [m])
    ∧ db' = {| users := users db; messages := messages db ++ [m] |}
    ∧ out = Socket.fanout um r s m.
Proof.
  unfold Socket.sendMessage. intros Hrun.
  repeat (case_match; simplify_eq).
  match goal with H : Message.save _ _ _ = Ok _ |- _ =>
    pose proof (save_Ok_inv _ _ _ _ H) as (-> & [x Hs] & [y Hr] & _) end.
  simpl in Hs, Hr.
  match goal with H : User.findById _ _ ?s = Ok ?a, H' : User.findById _ _ ?r = Ok ?b |- _ =>
    destruct a, b; simplify_eq/= end.
  eexists _, _, _, _, _. repeat split; eauto.
Qed.

(** A field that is missing or empty ends the handler at its first check. *)
Lemma sendMessage_falsy env um db data :
  Js.falsy (Socket.sender data) || Js.falsy (Socket.recipient data)
    || Js.falsy (Socket.content data) = true →
  Socket.sendMessage env um db data = (db, [], Socket.Missing_message_fields).
Proof.
  unfold Socket.sendMessage, Js.falsy. intros H.
  destruct (Socket.sender data) as [s|], (Socket.recipient data) as [r|],
    (Socket.content data) as [c|]; try done.
  by rewrite H.
Qed.

(** C2: a [sendMessage] event whose sender, recipient or content is
    missing is dropped: the handler returns at its first check, nothing is
    saved and nothing is emitted, so every later fetch of a conversation
    answers as it would have without the event. *)
Theorem sendMessage_missing_field_dropped env um db data :
  Socket.sender data = None ∨ Socket.recipient data = None
    ∨ Socket.content data = None →
  Socket.sendMessage env um db data = (db, [], Socket.Missing_message_fields)
  ∧ ∀ env' userId id,
      Api.getMessages env' (Socket.sendMessage env um db data).1.1 userId id
      = Api.getMessages env' db userId id.
Proof.
  intros H.
  assert (Socket.sendMessage env um db data = (db, [], Socket.Missing_message_fields)) as ->.
  { apply sendMessage_falsy. destruct H as [-> | [-> | ->]]; simpl;
      rewrite ?orb_true_r; done. }
  done.
Qed.

(** A message of A without a recipient, with B connected. *)
Lemma sendMessage_missing_field_dropped_witness :
  let data := {| Socket.sender := Some Sample.A; Socket.recipient := None;
                 Socket.content := Some "hi"; Socket.messageType := None |} in
  let run := Socket.sendMessage (Sample.env false 3000 Sample.id3)
               {[ Sample.B := 4%N ]} Sample.two_chats data in
  run = (Sample.two_chats, [], Socket.Missing_message_fields)
  ∧ ∀ env' userId id,
      Api.getMessages env' run.1.1 userId id
      = Api.getMessages env' Sample.two_chats userId id.
Proof.
  intros data run.
  apply (sendMessage_missing_field_dropped (Sample.env false 3000 Sample.id3)
           {[ Sample.B := 4%N ]} Sample.two_chats data).
  right. left. reflexivity.
Defined.

(** C3: a [sendMessage] event that gets as far as [newMessage.save()]
    (its three fields are there, both lookups of users have answered):
    if the save throws, the handler ends in its [catch], the database is
    as before and nothing has been emitted; an emit is only ever made
    with a save that has succeeded, and carries the saved document. *)
Theorem sendMessage_no_fanout_without_save env um db data s r c senderObject recipientObject :
  Socket.sender data = Some s → Socket.recipient data = Some r →
  Socket.content data = Some c →
  Js.falsy_string s || Js.falsy_string r || Js.falsy_string c = false →
  User.findById env (users db) s = Ok senderObject →
  User.findById env (users db) r = Ok recipientObject →
  let newMessage :=
    Message.new env senderObject recipientObject c (Socket.messageType data) in
  let '(db', out, o) := Socket.sendMessage env um db data in
  (∀ e, Message.save env (messages db) newMessage = Throw e →
        db' = db ∧ out = [] ∧ o = Socket.Error_saving_message e)
  ∧ (∀ x, x ∈ out →
        Message.save env (messages db) newMessage = Ok (messages db')
        ∧ Socket.message x = newMessage ∧ o = Socket.Saved newMessage).
Proof.
  intros Hs Hr Hc Hf Hso Hro newMessage.
  unfold Socket.sendMessage. rewrite Hs, Hr, Hc, Hf, Hso, Hro.
  fold newMessage. destruct (Message.save env (messages db) newMessage) as [coll|e] eqn:Hsave.
  - split; [discriminate|]. intros x Hx. split; [done|]. split; [|done].
    unfold Socket.fanout in Hx.
    apply elem_of_app in Hx as [Hx|Hx]; case_match;
      by (apply list_elem_of_singleton in Hx as -> || apply elem_of_nil in Hx).
  - split; [by intros e' [= ->]|]. by intros x Hx%elem_of_nil.
Qed.

(** With the database refusing writes, the message of A to B is not saved
    and B, though connected, is sent nothing. *)
Lemma sendMessage_no_fanout_without_save_witness :
  let env := {| SECRET_KEY := "secret"; strictQuery := false; mongo_reads := true;
                mongo_writes := false; now := 3000; fresh_id := Sample.id3 |} in
  let '(db', out, o) :=
    Socket.sendMessage env {[ Sample.B := 4%N ]} Sample.two_chats
      (Sample.say Sample.A Sample.B "hi") in
  db' = Sample.two_chats ∧ out = [] ∧ o = Socket.Error_saving_message MongoError.
Proof.
  intros env.
  pose proof (sendMessage_no_fanout_without_save env {[ Sample.B := 4%N ]}
    Sample.two_chats (Sample.say Sample.A Sample.B "hi") Sample.A Sample.B "hi"
    (Some (Sample.user Sample.A "a")) (Some (Sample.user Sample.B "b"))
    eq_refl eq_refl eq_refl eq_refl eq_refl eq_refl) as H.
  cbv zeta in H.
  destruct (Socket.sendMessage env {[ Sample.B := 4%N ]} Sample.two_chats
              (Sample.say Sample.A Sample.B "hi")) as [[db' out] o].
  destruct H as [H _]. apply H. reflexivity.
Defined.

(** What the handler does to the database: the users stay, and the
    messages stay or get one more, which refers to two users. *)
Lemma sendMessage_db env um db data :
  let db' := (Socket.sendMessage env um db data).1.1 in
  users db' = users db
  ∧ (messages db' = messages db
     ∨ ∃ m, messages db' = messages db ++ [m]
            ∧ valid_ref db (Message.sender m) ∧ valid_ref db (Message.recipient m)).
Proof.
  destruct (Socket.sendMessage env um db data) as [[db' out] o] eqn:Hrun. simpl.
  assert ((∃ m, o = Socket.Saved m) ∨ ∀ m, o ≠ Socket.Saved m) as [[m ->]|Hno].
  { destruct o; eauto; right; done. }
  - apply sendMessage_Saved_inv in Hrun
      as (s & r & c & us & ur & Hs & Hr & Hc & Hus & Hur & Hm & _ & -> & _).
    apply findById_Some_inv in Hus as [Hus Hcs].
    apply findById_Some_inv in Hur as [Hur Hcr].
    split; [done|]. right. exists m. subst m. simpl. split; [done|].
    split; eexists; eauto.
  - destruct (sendMessage_not_Saved _ _ _ _ _ _ _ Hrun Hno) as [-> ->]. auto.
Qed.

(** C9: whatever a [sendMessage] event stores refers to users that exist
    when it is stored: the database after the handler has the messages it
    had before and at most one more, whose sender and recipient are ids
    of users; and an event whose sender or recipient does not name a user
    stores and emits nothing. *)
Theorem sendMessage_references_valid env um db data :
  let '(db', out, o) := Socket.sendMessage env um db data in
  users db' = users db
  ∧ (messages db' = messages db
     ∨ ∃ m, messages db' = messages db ++ [m]
            ∧ valid_ref db (Message.sender m) ∧ valid_ref db (Message.recipient m))
  ∧ (¬ resolves db (Socket.sender data) ∨ ¬ resolves db (Socket.recipient data) →
     db' = db ∧ out = [] ∧ ∀ m, o ≠ Socket.Saved m).
Proof.
  pose proof (sendMessage_db env um db data) as Hdb.
  destruct (Socket.sendMessage env um db data) as [[db' out] o] eqn:Hrun.
  destruct Hdb as [Husers Hmsgs]. split; [done|]. split; [done|].
  intros Hunresolved.
  assert (∀ m, o ≠ Socket.Saved m) as Hno.
  { intros m ->.
    apply sendMessage_Saved_inv in Hrun
      as (s & r & c & us & ur & Hs & Hr & _ & Hus & Hur & _).
    apply findById_Some_inv in Hus as [Hus Hcs].
    apply findById_Some_inv in Hur as [Hur Hcr].
    destruct Hunresolved as [Hn|Hn]; apply Hn; eexists _, _; eauto. }
  destruct (sendMessage_not_Saved _ _ _ _ _ _ _ Hrun Hno) as [-> ->]. auto.
Qed.

(** A writes to an id no user has: [findById] gives [null], the save fails
    on the required path, nothing is stored or emitted. *)
Example sendMessage_unknown_recipient :
  Socket.sendMessage (Sample.env false 3000 Sample.id3) {[ Sample.A := 7%N ]}
    Sample.two_chats (Sample.say Sample.A "dddddddddddddddddddddddd" "anyone?")
  = (Sample.two_chats, [], Socket.Error_saving_message (ValidationError "recipient")).
Proof. reflexivity. Qed.

(** A writes to what is no id at all: [findById] throws outside the [try]. *)
Example sendMessage_malformed_recipient :
  Socket.sendMessage (Sample.env false 3000 Sample.id3) {[ Sample.A := 7%N ]}
    Sample.two_chats (Sample.say Sample.A "bob" "anyone?")
  = (Sample.two_chats, [], Socket.Unhandled (CastError "bob")).
Proof. reflexivity. Qed.

(** A, connected as 7, writes to B, connected as 4: the message is stored
    and emitted to 4, then to 7. *)
Example sendMessage_both_online :
  let m := Sample.text Sample.id3 Sample.A Sample.B "hi again" 3000 in
  Socket.sendMessage (Sample.env false 3000 Sample.id3)
    {[ Sample.A := 7%N; Sample.B := 4%N ]} Sample.two_chats
    (Sample.say Sample.A Sample.B "hi again")
  = ({| users := Sample.everyone; messages := messages Sample.two_chats ++ [m] |},
     [Socket.receiveMessage 4%N m; Socket.receiveMessage 7%N m],
     Socket.Saved m).
Proof. reflexivity. Qed.

(** ** Filters on a pair of users *)

Lemma filter_bool_decide {A} (P : A → Prop) `{!∀ x, Decision (P x)} (l : list A) :
  List.filter (λ x, bool_decide (P x)) l = filter P l.
Proof.
  induction l as [|x l IH]; [done|]. simpl. rewrite IH.
  rewrite filter_cons. by destruct (decide (P x)); [rewrite bool_decide_eq_true_2|rewrite bool_decide_eq_false_2].
Qed.

Lemma cast_between a b a' b' :
  castObjectId a = Ok a' → castObjectId b = Ok b' →
  Message.cast (Api.between a b) = Ok (Api.between a' b').
Proof.
  intros Ha Hb. unfold Api.between. simpl. unfold Message.cast_cond. simpl.
  by rewrite Ha, Hb.
Qed.

Lemma cast_between_Ok_inv a b q :
  Message.cast (Api.between a b) = Ok q →
  ∃ a' b', castObjectId a = Ok a' ∧ castObjectId b = Ok b'.
Proof.
  unfold Api.between. simpl. unfold Message.cast_cond. simpl.
  destruct (castObjectId a) as [a'|]; [|discriminate].
  destruct (castObjectId b) as [b'|]; [|discriminate]. eauto.
Qed.

Lemma matches_between env u c m :
  Message.matches env (Api.between u c) m = bool_decide (conversation u c m).
Proof.
  assert (Message.strip_or env (Api.between u c) = Api.between u c) as Hkept.
  { unfold Message.strip_or, Message.strip, Api.between.
    by destruct (strictQuery env). }
  unfold Message.matches. rewrite Hkept.
  unfold Api.between, Message.cond_holds, conversation. simpl.
  rewrite !andb_true_r, orb_false_r, <- !bool_decide_and, <- bool_decide_or.
  by apply bool_decide_ext.
Qed.

(** [Message.find] on a pair of users: the messages of their conversation,
    sorted. *)
Lemma find_between env coll a b a' b' o :
  mongo_reads env = true → castObjectId a = Ok a' → castObjectId b = Ok b' →
  Message.find env coll (Api.between a b) o
  = Ok (merge_sort (Message.before o) (filter (conversation a' b') coll)).
Proof.
  intros Hup Ha Hb. unfold Message.find, mongo_read.
  rewrite (cast_between _ _ _ _ Ha Hb), Hup.
  cbv beta iota delta [mbind Exc_bind]. do 2 f_equal.
  rewrite <- filter_bool_decide. apply filter_ext_in. intros m _.
  apply matches_between.
Qed.

(** ** [getMessages] *)

(** C7: for a user [U] and a counterpart [C] (two ids, with the database
    answering), [getMessages] answers 200 with exactly the messages whose
    sender and recipient are [U] and [C] or [C] and [U], each as often as
    it is stored, in ascending order of [timestamp]. *)
Theorem getMessages_conversation_ascending env db U C u c :
  mongo_reads env = true → castObjectId U = Ok u → castObjectId C = Ok c →
  ∃ ms,
    Api.getMessages env db U (Some C)
    = {| Api.status := 200; Api.body := Api.json_messages ms |}
    ∧ ms ≡ₚ filter (conversation u c) (messages db)
    ∧ StronglySorted (λ m1 m2, Message.timestamp m1 ≤ Message.timestamp m2) ms.
Proof.
  intros Hup HU HC. unfold Api.getMessages.
  rewrite (castObjectId_truthy _ _ HC), (find_between _ _ _ _ _ _ _ Hup HU HC).
  eexists. split; [done|]. split.
  - apply merge_sort_Permutation.
  - apply (StronglySorted_merge_sort (Message.before Message.ascending)).
Qed.

Lemma getMessages_conversation_ascending_witness :
  ∃ ms,
    Api.getMessages (Sample.env false 0 Sample.id3) Sample.two_chats Sample.A (Some Sample.B)
    = {| Api.status := 200; Api.body := Api.json_messages ms |}
    ∧ ms ≡ₚ filter (conversation Sample.A Sample.B) (messages Sample.two_chats)
    ∧ StronglySorted (λ m1 m2, Message.timestamp m1 ≤ Message.timestamp m2) ms.
Proof.
  apply (getMessages_conversation_ascending (Sample.env false 0 Sample.id3)
           Sample.two_chats Sample.A Sample.B Sample.A Sample.B); reflexivity.
Defined.

(** ** [deleteDm] *)

Lemma deleteMany_between env coll a b a' b' :
  mongo_writes env = true → castObjectId a = Ok a' → castObjectId b = Ok b' →
  Message.deleteMany env coll (Api.between a b)
  = Ok (filter (λ m, ¬ conversation a' b' m) coll,
        length (filter (conversation a' b') coll)).
Proof.
  intros Hup Ha Hb. unfold Message.deleteMany, mongo_write.
  rewrite (cast_between _ _ _ _ Ha Hb), Hup.
  cbv beta iota delta [mbind Exc_bind]. do 2 f_equal.
  - rewrite <- filter_bool_decide. apply filter_ext_in. intros m _. cbv beta.
    by rewrite matches_between, bool_decide_not.
  - f_equal. rewrite <- filter_bool_decide. apply filter_ext_in. intros m _.
    apply matches_between.
Qed.

Lemma filter_conversation_gone u c (coll : list Message.t) :
  filter (conversation u c) (filter (λ m, ¬ conversation u c m) coll) = [].
Proof.
  induction coll as [|m coll IH]; [done|].
  rewrite (filter_cons (λ m, ¬ conversation u c m)).
  destruct (decide (¬ conversation u c m)); [|done].
  rewrite filter_cons. by destruct (decide (conversation u c m)).
Qed.

Lemma filter_not_conversation_idemp u c (coll : list Message.t) :
  filter (λ m, ¬ conversation u c m) (filter (λ m, ¬ conversation u c m) coll)
  = filter (λ m, ¬ conversation u c m) coll.
Proof.
  induction coll as [|m coll IH]; [done|].
  rewrite (filter_cons _ m coll).
  destruct (decide (¬ conversation u c m)); [|done].
  rewrite filter_cons. destruct (decide (¬ conversation u c m)); [|done].
  by rewrite IH.
Qed.

(** C8: [deleteDm] for a user [U] and a counterpart [C] (two ids, with the
    database taking writes) answers 200 and leaves exactly the messages
    that are not of their conversation, in either direction; fetching the
    conversation afterwards gives the empty list; and deleting it once
    more answers 200 again and changes nothing. *)
Theorem deleteDm_removes_conversation env db U C u c :
  mongo_writes env = true → castObjectId U = Ok u → castObjectId C = Ok c →
  let ok := {| Api.status := 200; Api.body := Api.json_message "DM deleted successfully" |} in
  let db' := (Api.deleteDm env db U (Some C)).1 in
  Api.deleteDm env db U (Some C) = (db', ok)
  ∧ users db' = users db
  ∧ messages db' = filter (λ m, ¬ conversation u c m) (messages db)
  ∧ (∀ m, m ∈ messages db' → ¬ conversation u c m)
  ∧ (∀ env', mongo_reads env' = true →
       Api.getMessages env' db' U (Some C)
       = {| Api.status := 200; Api.body := Api.json_messages [] |})
  ∧ (∀ env', mongo_writes env' = true → Api.deleteDm env' db' U (Some C) = (db', ok)).
Proof.
  intros Hup HU HC ok db'.
  assert (Api.deleteDm env db U (Some C)
          = ({| users := users db;
                messages := filter (λ m, ¬ conversation u c m) (messages db) |}, ok)) as Hdel.
  { unfold Api.deleteDm.
    by rewrite (castObjectId_truthy _ _ HC), (deleteMany_between _ _ _ _ _ _ Hup HU HC). }
  subst db'. rewrite Hdel. simpl. repeat split.
  - by intros m [? _]%list_elem_of_filter.
  - intros env' Hup'. unfold Api.getMessages.
    rewrite (castObjectId_truthy _ _ HC), (find_between _ _ _ _ _ _ _ Hup' HU HC).
    simpl. by rewrite filter_conversation_gone.
  - intros env' Hup'. unfold Api.deleteDm.
    rewrite (castObjectId_truthy _ _ HC), (deleteMany_between _ _ _ _ _ _ Hup' HU HC).
    simpl. by rewrite filter_not_conversation_idemp.
Qed.

Lemma deleteDm_removes_conversation_witness :
  let env := Sample.env false 0 Sample.id3 in
  let ok := {| Api.status := 200; Api.body := Api.json_message "DM deleted successfully" |} in
  let db' := (Api.deleteDm env Sample.two_chats Sample.A (Some Sample.B)).1 in
  Api.deleteDm env Sample.two_chats Sample.A (Some Sample.B) = (db', ok)
  ∧ messages db' = [Sample.text Sample.id2 Sample.A Sample.C "hi C" 2000]
  ∧ Api.deleteDm env db' Sample.A (Some Sample.B) = (db', ok).
Proof.
  intros env ok db'.
  destruct (deleteDm_removes_conversation env Sample.two_chats Sample.A Sample.B
              Sample.A Sample.B eq_refl eq_refl eq_refl) as (H1 & _ & H3 & _ & _ & H6).
  split; [exact H1|]. split; [exact H3|]. apply H6. reflexivity.
Defined.

(** ** Fanout *)

Lemma received_fanout um r s m h :
  received h (Socket.fanout um r s m)
  = (if bool_decide (um !! r = Some h) then [m] else [])
    ++ (if bool_decide (um !! s = Some h) then [m] else []).
Proof.
  unfold received, Socket.fanout. rewrite List.filter_app, fmap_app. f_equal.
  - destruct (um !! r) as [h'|]; simpl; [|done].
    destruct (decide (h' = h)) as [->|Hne].
    + by rewrite !bool_decide_eq_true_2.
    + rewrite !bool_decide_eq_false_2; [done|congruence|done].
  - destruct (um !! s) as [h'|]; simpl; [|done].
    destruct (decide (h' = h)) as [->|Hne].
    + by rewrite !bool_decide_eq_true_2.
    + rewrite !bool_decide_eq_false_2; [done|congruence|done].
Qed.

(** A stored message of the conversation of two ids is in what
    [getMessages] answers for them. *)
Lemma getMessages_includes env db m a b a' b' :
  mongo_reads env = true → castObjectId a = Ok a' → castObjectId b = Ok b' →
  conversation a' b' m → m ∈ messages db →
  ∃ ms, Api.getMessages env db a (Some b)
        = {| Api.status := 200; Api.body := Api.json_messages ms |}
        ∧ m ∈ ms.
Proof.
  intros Hup Ha Hb Hconv Hin. unfold Api.getMessages.
  rewrite (castObjectId_truthy _ _ Hb), (find_between _ _ _ _ _ _ _ Hup Ha Hb).
  eexists. split; [done|].
  rewrite merge_sort_Permutation. by apply list_elem_of_filter.
Qed.

(** After a message of A to B has been saved, the connection [userMap]
    has for B is sent the saved document exactly once if it is not also
    the connection [userMap] has for A, and twice if it is; if [userMap]
    has no entry for B, the only emit is the one to the connection of A,
    if any; and fetching the conversation of A and B afterwards gives the
    message. *)
Lemma sendMessage_fanout env um db data db' out m :
  Socket.sendMessage env um db data = (db', out, Socket.Saved m) →
  ∃ s r,
    Socket.sender data = Some s ∧ Socket.recipient data = Some r
    ∧ (∀ h, um !! r = Some h → um !! s ≠ Some h → received h out = [m])
    ∧ (∀ h, um !! r = Some h → um !! s = Some h → received h out = [m; m])
    ∧ (um !! r = None →
       out = if um !! s is Some h then [Socket.receiveMessage h m] else [])
    ∧ (∀ env', mongo_reads env' = true →
       ∃ ms, Api.getMessages env' db' s (Some r)
             = {| Api.status := 200; Api.body := Api.json_messages ms |}
             ∧ m ∈ ms).
Proof.
  intros (s & r & c & us & ur & Hs & Hr & Hc & Hus & Hur & Hm & _ & -> & ->)
    %sendMessage_Saved_inv.
  exists s, r. split; [done|]. split; [done|].
  apply findById_Some_inv in Hus as [_ Hcs].
  apply findById_Some_inv in Hur as [_ Hcr].
  repeat split.
  - intros h Hh Hn. rewrite received_fanout.
    by rewrite bool_decide_eq_true_2, bool_decide_eq_false_2.
  - intros h Hh Hh'. rewrite received_fanout.
    by rewrite !bool_decide_eq_true_2.
  - intros Hnone. unfold Socket.fanout. by rewrite Hnone.
  - intros env' Hup.
    apply (getMessages_includes env' _ m s r _ _ Hup Hcs Hcr).
    + left. by subst m.
    + simpl. apply elem_of_app. right. by apply list_elem_of_singleton.
Qed.

(** ** Handshake and presence *)

Section presence.
Context {verifier : TokenVerifier} {parser : CookieParser}.

Lemma step_Connect_Accepted env s id cookie_header userId :
  Socket.authenticate env cookie_header = Socket.Accepted userId →
  Socket.step env s (Socket.Connect id cookie_header)
  = (Socket.connection id userId s, []).
Proof. intros H. simpl. by rewrite H. Qed.

Lemma step_Disconnect_live env s id userId :
  Socket.sockets s !! id = Some userId →
  Socket.step env s (Socket.Disconnect id) = (Socket.disconnect id userId s, []).
Proof. intros H. simpl. by rewrite H. Qed.

(** C6: a connection whose [Cookie] header has no [jwt] cookie (or an
    empty one), or whose token [jwt.verify] refuses, does not get
    through the handshake: the middleware ends in [next(new Error(..))],
    the [connection] handler never runs, [userMap], the sockets and the
    database are what they were, and what the socket sends afterwards has
    no handler. *)
Theorem handshake_refused_no_state_change env s id cookie_header :
  let token := cookie_parse (Js.or_else cookie_header "") !! "jwt" in
  token = None ∨ token = Some ""
    ∨ (∃ t, token = Some t ∧ jwt_verify t (SECRET_KEY env) = None) →
  (∃ msg, Socket.authenticate env cookie_header = Socket.Refused msg)
  ∧ Socket.step env s (Socket.Connect id cookie_header) = (s, [])
  ∧ (Socket.sockets s !! id = None →
     ∀ env' data,
       Socket.step env' (Socket.step env s (Socket.Connect id cookie_header)).1
         (Socket.SendMessage id data) = (s, [])).
Proof.
  intros token H.
  assert (∃ msg, Socket.authenticate env cookie_header = Socket.Refused msg) as [msg Hmsg].
  { unfold Socket.authenticate. fold token.
    destruct H as [-> | [-> | (t & -> & Hv)]]; eauto.
    destruct (Js.falsy_string t); eauto. rewrite Hv. eauto. }
  assert (Socket.step env s (Socket.Connect id cookie_header) = (s, [])) as Hstep.
  { simpl. by rewrite Hmsg. }
  split; [eauto|]. split; [done|].
  intros Hid env' data. rewrite Hstep. simpl. by rewrite Hid.
Qed.


End presence.

Lemma handshake_refused_no_state_change_witness :
  let s := Socket.initial Sample.two_chats in
  @Socket.step Sample.verifier Sample.parser (Sample.env false 0 Sample.id3) s
    (Socket.Connect 5%N (Some "jwt=forged")) = (s, []).
Proof.
  intros s.
  apply (@handshake_refused_no_state_change Sample.verifier Sample.parser
           (Sample.env false 0 Sample.id3) s 5%N (Some "jwt=forged")).
  right. right. exists "forged". split; reflexivity.
Defined.


(** ** [getContacts] *)

(** The callback of the [forEach] throws on every message: a string has
    no method [tostring]. *)
Lemma collect_throws currentUserId userIds msg :
  Api.collect currentUserId userIds msg = Throw (TypeError "tostring is not a function").
Proof. reflexivity. Qed.

Lemma forEach_collect_throws currentUserId msg msgs userIds :
  forEach (Api.collect currentUserId) (msg :: msgs) userIds
  = Throw (TypeError "tostring is not a function").
Proof. reflexivity. Qed.

(** [getContacts] never answers with a list of contacts: it answers 400,
    or 200 with [[]] when the query finds no message, or 500. *)
Lemma getContacts_never_lists_contacts env db userId :
  Api.getContacts env db userId
    = {| Api.status := 400; Api.body := Api.json_message "No user ID found in token" |}
  ∨ Api.getContacts env db userId
    = {| Api.status := 200; Api.body := Api.json_array_empty |}
  ∨ Api.getContacts env db userId = Api.server_or_database_issue.
Proof.
  unfold Api.getContacts. destruct (Js.falsy_string userId); [by left|].
  right. unfold Api.getContacts_try.
  destruct (Message.find _ _ _ _) as [[|msg msgs]|e]; simpl; auto.
Qed.

(** The query of [getContacts]: the messages the user has sent. The
    clause on [receiver] adds none: with [strictQuery] it loses its
    condition and is taken out of the [$or], without it the condition
    holds of no document. *)
Lemma find_sent_or_receiver env coll userId u :
  mongo_reads env = true → castObjectId userId = Ok u →
  Message.find env coll
    [[(Message.p_sender, userId)]; [(Message.p_receiver, userId)]] Message.descending
  = Ok (merge_sort (Message.before Message.descending)
          (filter (λ m, Message.sender m = Some u) coll)).
Proof.
  intros Hup Hu. unfold Message.find, mongo_read. rewrite Hup.
  cbn [Message.cast Message.cast_clause]. unfold Message.cast_cond.
  cbn [fst snd Message.schema]. rewrite Hu.
  cbv beta iota delta [mbind mret Exc_bind Exc_ret]. do 2 f_equal.
  rewrite <- filter_bool_decide. apply filter_ext_in. intros m _.
  unfold Message.matches, Message.strip_or, Message.strip, Message.cond_holds.
  destruct (strictQuery env); cbn; by rewrite ?andb_true_r, ?orb_false_r.
Qed.

(** With a message of the user as sender in the database, the query finds
    it, the loop throws, and the answer is 500. *)
Lemma getContacts_of_a_sender_fails env db userId u m :
  mongo_reads env = true → castObjectId userId = Ok u →
  m ∈ messages db → Message.sender m = Some u →
  Api.getContacts env db userId = Api.server_or_database_issue.
Proof.
  intros Hup Hu Hin Hm. unfold Api.getContacts, Api.getContacts_try.
  rewrite (castObjectId_truthy _ _ Hu), (find_sent_or_receiver _ _ _ _ Hup Hu).
  cbv beta iota delta [mbind Exc_bind].
  destruct (merge_sort _ _) as [|msg msgs] eqn:Hfound; [|done].
  exfalso. apply (elem_of_nil m). rewrite <- Hfound, merge_sort_Permutation.
  apply list_elem_of_filter. auto.
Qed.

(** Nobody has written yet: the query finds nothing and the answer is
    200 with an empty array. *)
Example getContacts_nobody_wrote :
  Api.getContacts (Sample.env false 0 Sample.id3) Sample.nobody_wrote Sample.A
  = {| Api.status := 200; Api.body := Api.json_array_empty |}.
Proof. reflexivity. Qed.

(** What the specification expects for A on the sample: C, then B. *)
Example contacts_by_recency_two_chats :
  contacts_by_recency Sample.A (messages Sample.two_chats) = [Sample.C; Sample.B].
Proof. reflexivity. Qed.

(** B has received a message and sent none: the query finds nothing,
    whatever [strictQuery] is, and the answer is [[]], not A. *)
Example getContacts_of_a_recipient :
  ∀ strict,
    Api.getContacts (Sample.env strict 0 Sample.id3) Sample.two_chats Sample.B
    = {| Api.status := 200; Api.body := Api.json_array_empty |}.
Proof. by intros []. Qed.

(** C1 fails on the code. A wrote to B at 1000 and to C at 2000; B and C
    should be listed, C first. Instead the answer of [getContacts] for A
    is 500, whatever [strictQuery] is. *)
Theorem getContacts_two_chats_fails strict t id :
  Api.getContacts (Sample.env strict t id) Sample.two_chats Sample.A
  = Api.server_or_database_issue.
Proof.
  apply (getContacts_of_a_sender_fails _ _ _ Sample.A
           (Sample.text Sample.id1 Sample.A Sample.B "hi B" 1000));
    [reflexivity | reflexivity | | reflexivity].
  apply list_elem_of_here.
Qed.

(** ** Fanout on the running server *)

Section fanout_on_server.
Context {verifier : TokenVerifier} {parser : CookieParser}.

Lemma presence_live_step env s e :
  Socket.fresh s e → Socket.presence_live s →
  Socket.presence_live (Socket.step env s e).1.
Proof.
  intros Hfresh Hlive. destruct e as [id hdr|id|id data]; simpl in *.
  - destruct (Socket.authenticate env hdr) as [msg|U]; [done|].
    intros U' h. simpl. destruct (decide (U = U')) as [->|HU].
    + rewrite lookup_insert_eq. intros [= ->]. apply lookup_insert_eq.
    + rewrite lookup_insert_ne by done. intros Hh.
      rewrite lookup_insert_ne; [by apply Hlive|].
      intros ->. apply Hlive in Hh. congruence.
  - destruct (Socket.sockets s !! id) as [U|] eqn:Hid; [|done].
    intros U' h. simpl. destruct (decide (U = U')) as [->|HU].
    + by rewrite lookup_delete_eq.
    + rewrite lookup_delete_ne by done. intros Hh.
      rewrite lookup_delete_ne; [by apply Hlive|].
      intros ->. apply Hlive in Hh. congruence.
  - destruct (Socket.sockets s !! id); [|done].
    by destruct (Socket.sendMessage _ _ _ _) as [[??]?].
Qed.

(** On the running server every entry of [userMap] is a live socket of
    its user. *)
Lemma reachable_presence_live db0 s :
  Socket.reachable (Socket.initial db0) s → Socket.presence_live s.
Proof.
  induction 1 as [|env s e _ IH Hfresh].
  - intros U h. simpl. by rewrite lookup_empty.
  - by apply presence_live_step.
Qed.

(** The handler keeps every stored message referring to two users. *)
Lemma sendMessage_refs_valid env um db data :
  refs_valid db → refs_valid (Socket.sendMessage env um db data).1.1.
Proof.
  intros Hvalid. destruct (sendMessage_db env um db data) as [Husers Hmsgs].
  assert (∀ ref, valid_ref db ref →
            valid_ref (Socket.sendMessage env um db data).1.1 ref) as Hmono.
  { intros ref (u & Hu & ->). exists u. by rewrite Husers. }
  intros m Hm. destruct Hmsgs as [Heq|(m' & Heq & Hs & Hr)]; rewrite Heq in Hm.
  - destruct (Hvalid m Hm). auto.
  - apply elem_of_app in Hm as [Hm| ->%list_elem_of_singleton]; [|auto].
    destruct (Hvalid m Hm). auto.
Qed.

(** So on the running server no stored message has a dangling sender or
    recipient, if none had at the start. *)
Lemma reachable_refs_valid db0 s :
  refs_valid db0 → Socket.reachable (Socket.initial db0) s → refs_valid (Socket.db s).
Proof.
  intros H0. induction 1 as [|env s e _ IH _]; [done|].
  destruct e as [id hdr|id|id data]; simpl.
  - by destruct (Socket.authenticate env hdr).
  - by destruct (Socket.sockets s !! id).
  - destruct (Socket.sockets s !! id); [|done].
    pose proof (sendMessage_refs_valid env (Socket.userMap s) (Socket.db s) data IH).
    by destruct (Socket.sendMessage _ _ _ _) as [[??]?].
Qed.

(** So no connection is entered for two users. *)
Lemma reachable_userMap_inj db0 s a b h :
  Socket.reachable (Socket.initial db0) s →
  Socket.userMap s !! a = Some h → Socket.userMap s !! b = Some h → a = b.
Proof.
  intros Hs%reachable_presence_live Ha%Hs Hb%Hs. congruence.
Qed.

(** C4, as the code has it. On the running server a message whose
    payload names the sender by the string [A] and the recipient by the
    string [B] has been saved. The record holds the ids [a] and [b] of
    two users, the ones the strings cast to (their lower-case form),
    while [userMap] is read under the strings as the payload writes them:
    every connection is sent the saved document once if it is the entry
    under [B], once more if it is the entry under [A], and otherwise not
    at all. So the connection entered under [B] is sent the document
    exactly once if [A] is another string, and twice if [A] is [B]; if
    [userMap] has no entry under [B], the only emit is the one to the
    entry under [A], if any; a recipient connected under its id [b] is
    sent nothing when the payload writes that id otherwise (in upper
    case) and [b] is not the sender's string either; and fetching the
    conversation of [A] and [B] afterwards gives the message. *)
Theorem fanout_to_recipient env db0 s db data db' out m A B :
  Socket.reachable (Socket.initial db0) s →
  Socket.sendMessage env (Socket.userMap s) db data = (db', out, Socket.Saved m) →
  Socket.sender data = Some A → Socket.recipient data = Some B →
  ∃ a b,
    castObjectId A = Ok a ∧ castObjectId B = Ok b
    ∧ valid_ref db (Some a) ∧ valid_ref db (Some b)
    ∧ Message.sender m = Some a ∧ Message.recipient m = Some b
    ∧ (∀ h, received h out
            = (if bool_decide (Socket.userMap s !! B = Some h) then [m] else [])
              ++ (if bool_decide (Socket.userMap s !! A = Some h) then [m] else []))
    ∧ (∀ h, Socket.userMap s !! B = Some h → A ≠ B → received h out = [m])
    ∧ (∀ h, Socket.userMap s !! B = Some h → A = B → received h out = [m; m])
    ∧ (Socket.userMap s !! B = None →
       out = if Socket.userMap s !! A is Some h then [Socket.receiveMessage h m] else [])
    ∧ (∀ h, Socket.userMap s !! b = Some h → B ≠ b → A ≠ b → received h out = [])
    ∧ (∀ env', mongo_reads env' = true →
       ∃ ms, Api.getMessages env' db' A (Some B)
             = {| Api.status := 200; Api.body := Api.json_messages ms |}
             ∧ m ∈ ms).
Proof.
  intros Hs Hrun HA HB.
  destruct (sendMessage_fanout _ _ _ _ _ _ _ Hrun)
    as (A' & B' & Ha & Hb & Hone & Htwo & Hnone & Hhist).
  assert (A' = A) as -> by congruence. assert (B' = B) as -> by congruence.
  apply sendMessage_Saved_inv in Hrun
    as (A' & B' & c & ua & ub & Ha' & Hb' & _ & Hua & Hub & Hm & _ & _ & Hout).
  assert (A' = A) as -> by congruence. assert (B' = B) as -> by congruence.
  apply findById_Some_inv in Hua as [Hua HcA].
  apply findById_Some_inv in Hub as [Hub HcB].
  exists (User._id ua), (User._id ub).
  split; [done|]. split; [done|].
  split; [by exists ua|]. split; [by exists ub|].
  split; [by subst m|]. split; [by subst m|].
  split; [intros h; rewrite Hout; apply received_fanout|].
  split.
  { intros h Hh Hne. apply Hone; [done|]. intros Hh'.
    by apply Hne, (reachable_userMap_inj db0 s A B h). }
  split; [by intros h Hh ->; apply Htwo|].
  split; [done|].
  split; [|done].
  intros h Hh HB' HA'. rewrite Hout, received_fanout.
  rewrite !bool_decide_eq_false_2; [done| |].
  - intros Hh'. by apply HA', (reachable_userMap_inj db0 s A (User._id ub) h).
  - intros Hh'. by apply HB', (reachable_userMap_inj db0 s B (User._id ub) h).
Qed.

(** C10: the [disconnect] handler deletes the entry of its user whatever
    the entry holds. A connection [h1] of [U], then a connection [h2] of
    [U], then the disconnect of [h1]: the socket [h2] is still there with
    its handlers, but [userMap] has nothing for [U], and a message to [U]
    is emitted to the sender's connection only; on the running server,
    where [h2] was a new id, no emit for any message reaches [h2]. *)
Theorem disconnect_of_superseded_unregisters_live env1 env2 env3 s U h1 h2 hdr1 hdr2 :
  h1 ≠ h2 →
  Socket.authenticate env1 hdr1 = Socket.Accepted U →
  Socket.authenticate env2 hdr2 = Socket.Accepted U →
  let s' := (Socket.run s [(env1, Socket.Connect h1 hdr1);
                           (env2, Socket.Connect h2 hdr2);
                           (env3, Socket.Disconnect h1)]).1 in
  Socket.sockets s' !! h2 = Some U
  ∧ Socket.userMap s' !! U = None
  ∧ (∀ sender m,
       Socket.fanout (Socket.userMap s') U sender m
       = if Socket.userMap s' !! sender is Some id then [Socket.receiveMessage id m] else [])
  ∧ (∀ db0, Socket.reachable (Socket.initial db0) s → Socket.sockets s !! h2 = None →
       ∀ recipient sender m,
         received h2 (Socket.fanout (Socket.userMap s') recipient sender m) = []).
Proof.
  intros Hne H1 H2 s'.
  assert (s' = Socket.disconnect h1 U
                 (Socket.connection h2 U (Socket.connection h1 U s))) as ->.
  { subst s'. unfold Socket.run.
    rewrite (step_Connect_Accepted _ _ _ _ _ H1), (step_Connect_Accepted _ _ _ _ _ H2).
    rewrite (step_Disconnect_live _ _ _ U); [done|].
    simpl. rewrite lookup_insert_ne by done. apply lookup_insert_eq. }
  simpl. split; [|split; [|split]].
  - rewrite lookup_delete_ne by done. apply lookup_insert_eq.
  - apply lookup_delete_eq.
  - intros sender m. unfold Socket.fanout. by rewrite lookup_delete_eq.
  - intros db0 Hs%reachable_presence_live Hfresh recipient sender m.
    assert (∀ V, delete U (<[U:=h2]> (<[U:=h1]> (Socket.userMap s))) !! V ≠ Some h2) as Hno.
    { intros V. destruct (decide (U = V)) as [->|HV].
      - by rewrite lookup_delete_eq.
      - rewrite lookup_delete_ne, !lookup_insert_ne by done.
        intros HVh%Hs. congruence. }
    rewrite received_fanout. by rewrite !bool_decide_eq_false_2.
Qed.

End fanout_on_server.

(** A connects as 1, then as 2; connection 1 goes away: connection 2 is
    live and [userMap] has nothing for A. *)
Lemma disconnect_of_superseded_unregisters_live_witness :
  let s := Socket.initial Sample.two_chats in
  let env := Sample.env false 0 Sample.id3 in
  let s' := (@Socket.run Sample.verifier Sample.parser s
               [(env, Socket.Connect 1%N (Some "jwt=token-of-a"));
                (env, Socket.Connect 2%N (Some "jwt=token-of-a"));
                (env, Socket.Disconnect 1%N)]).1 in
  Socket.sockets s' !! 2%N = Some Sample.A ∧ Socket.userMap s' !! Sample.A = None
  ∧ ∀ recipient sender m,
      received 2%N (Socket.fanout (Socket.userMap s') recipient sender m) = [].
Proof.
  intros s env s'.
  destruct (@disconnect_of_superseded_unregisters_live Sample.verifier Sample.parser
              env env env s Sample.A 1%N 2%N (Some "jwt=token-of-a") (Some "jwt=token-of-a"))
    as (H1 & H2 & _ & H4); [discriminate | reflexivity | reflexivity |].
  split; [exact H1|]. split; [exact H2|].
  apply (H4 Sample.two_chats); [apply Socket.reachable_start | reflexivity].
Defined.

(** B has connected as 4. A writes to B: connection 4 gets the saved
    message once. A writes to B with the id of B in upper case: the
    message is saved for B, and connection 4 gets nothing. *)
Lemma fanout_to_recipient_witness :
  let env := Sample.env false 3000 Sample.id3 in
  let s := (@Socket.step Sample.verifier Sample.parser env
              (Socket.initial Sample.two_chats)
              (Socket.Connect 4%N (Some "jwt=token-of-b"))).1 in
  let m := Sample.text Sample.id3 Sample.A Sample.B "hi again" 3000 in
  let send B :=
    Socket.sendMessage env (Socket.userMap s) (Socket.db s)
      (Sample.say Sample.A B "hi again") in
  Socket.userMap s !! Sample.B = Some 4%N
  ∧ (send Sample.B).2 = Socket.Saved m
  ∧ received 4%N (send Sample.B).1.2 = [m]
  ∧ (send "BBBBBBBBBBBBBBBBBBBBBBBB").2 = Socket.Saved m
  ∧ received 4%N (send "BBBBBBBBBBBBBBBBBBBBBBBB").1.2 = [].
Proof.
  intros env s m send.
  assert (@Socket.reachable Sample.verifier Sample.parser
            (Socket.initial Sample.two_chats) s) as Hs.
  { apply Socket.reachable_step; [apply Socket.reachable_start | reflexivity]. }
  split; [reflexivity|]. split; [reflexivity|]. split; [|split; [reflexivity|]].
  - destruct (@fanout_to_recipient Sample.verifier Sample.parser env Sample.two_chats s
                (Socket.db s) (Sample.say Sample.A Sample.B "hi again") _ _ m
                Sample.A Sample.B Hs eq_refl eq_refl eq_refl)
      as (a & b & _ & _ & _ & _ & _ & _ & _ & H1 & _).
    apply H1; [reflexivity | discriminate].
  - destruct (@fanout_to_recipient Sample.verifier Sample.parser env Sample.two_chats s
                (Socket.db s) (Sample.say Sample.A "BBBBBBBBBBBBBBBBBBBBBBBB" "hi again")
                _ _ m Sample.A "BBBBBBBBBBBBBBBBBBBBBBBB" Hs eq_refl eq_refl eq_refl)
      as (a & b & _ & Hb & _ & _ & _ & _ & _ & _ & _ & _ & H5 & _).
    injection Hb as <-.
    apply H5; [reflexivity | discriminate | discriminate].
Defined.

(** C4 as stated fails for a message of a user to themselves: A connects
    as 7 and writes to A; the message is saved, [userMap] has connection 7
    for the recipient, and connection 7 is sent the message twice, not
    once. *)
Lemma fanout_to_self_received_twice :
  let env := Sample.env false 3000 Sample.id3 in
  let s := (@Socket.step Sample.verifier Sample.parser env
              (Socket.initial Sample.two_chats)
              (Socket.Connect 7%N (Some "jwt=token-of-a"))).1 in
  let m := Sample.text Sample.id3 Sample.A Sample.A "note to self" 3000 in
  ∃ db' out,
    Socket.sendMessage env (Socket.userMap s) (Socket.db s)
      (Sample.say Sample.A Sample.A "note to self") = (db', out, Socket.Saved m)
    ∧ Socket.userMap s !! Sample.A = Some 7%N
    ∧ received 7%N out = [m; m]
    ∧ received 7%N out ≠ [m].
Proof.
  intros env s m. eexists _, _. split; [vm_compute; reflexivity|].
  split; [reflexivity|]. split; [reflexivity|]. discriminate.
Qed.

(** It fails as well when the payload writes the recipient's id in upper
    case: B is connected as 4 under its id, the message is saved with B
    as its recipient, and no connection is sent anything. *)
Example fanout_misses_recipient_in_upper_case :
  let env := Sample.env false 3000 Sample.id3 in
  let s := (@Socket.step Sample.verifier Sample.parser env
              (Socket.initial Sample.two_chats)
              (Socket.Connect 4%N (Some "jwt=token-of-b"))).1 in
  let m := Sample.text Sample.id3 Sample.A Sample.B "hi again" 3000 in
  Socket.userMap s !! Sample.B = Some 4%N
  ∧ Message.recipient m = Some Sample.B
  ∧ Socket.sendMessage env (Socket.userMap s) (Socket.db s)
      (Sample.say Sample.A "BBBBBBBBBBBBBBBBBBBBBBBB" "hi again")
    = ({| users := Sample.everyone; messages := messages Sample.two_chats ++ [m] |},
       [], Socket.Saved m).
Proof. intros env s m. split; [reflexivity|]. split; reflexivity. Qed.

(** ** The endpoints behind [verifyToken] *)

Section routes.
Context {verifier : TokenVerifier}.

(** A request without a [jwt] cookie, or with one [jwt.verify] refuses,
    is answered 401 or 403 by [verifyToken]; [deleteDm] does not run and
    the database is what it was. *)
Lemma delete_dm_not_authenticated env db cookies_jwt dmId :
  cookies_jwt = None ∨ cookies_jwt = Some ""
    ∨ (∃ t, cookies_jwt = Some t ∧ jwt_verify t (SECRET_KEY env) = None) →
  ∃ res, Api.delete_dm env db cookies_jwt dmId = (db, res)
         ∧ (Api.status res = 401%nat ∨ Api.status res = 403%nat).
Proof.
  unfold Api.delete_dm, Api.verifyToken.
  intros [-> | [-> | (t & -> & Hv)]]; simpl; eauto.
  destruct (Js.falsy_string t); eauto. rewrite Hv. eauto.
Qed.

(** With a good token the endpoint runs for the user of the token. *)
Lemma get_messages_authenticated env db token payload id :
  Js.falsy_string token = false →
  jwt_verify token (SECRET_KEY env) = Some payload →
  Api.get_messages env db (Some token) id
  = Api.getMessages env db (Jwt.userId payload) id.
Proof.
  intros Ht Hv. unfold Api.get_messages, Api.verifyToken. by rewrite Ht, Hv.
Qed.

End routes.

(** * More of index.js *)

(** ** A conversation has no direction *)

Lemma conversation_sym u c m : conversation u c m ↔ conversation c u m.
Proof. unfold conversation. tauto. Qed.

(** [Message.find] on a pair of strings, in every case. *)
Lemma find_between_cases env coll a b o :
  Message.find env coll (Api.between a b) o
  = match castObjectId a, castObjectId b with
    | Ok a', Ok b' =>
      if mongo_reads env
      then Ok (merge_sort (Message.before o) (filter (conversation a' b') coll))
      else Throw MongoError
    | Throw e, _ => Throw e
    | Ok _, Throw e => Throw e
    end.
Proof.
  destruct (castObjectId a) as [a'|ea] eqn:Ha, (castObjectId b) as [b'|eb] eqn:Hb.
  - destruct (mongo_reads env) eqn:Hup; [by apply find_between|].
    unfold Message.find, mongo_read. by rewrite (cast_between _ _ _ _ Ha Hb), Hup.
  - unfold Message.find, Api.between. simpl. unfold Message.cast_cond. simpl.
    by rewrite Ha, Hb.
  - unfold Message.find, Api.between. simpl. unfold Message.cast_cond. simpl.
    by rewrite Ha.
  - unfold Message.find, Api.between. simpl. unfold Message.cast_cond. simpl.
    by rewrite Ha.
Qed.

(** [Message.deleteMany] on a pair of strings, in every case. *)
Lemma deleteMany_between_cases env coll a b :
  Message.deleteMany env coll (Api.between a b)
  = match castObjectId a, castObjectId b with
    | Ok a', Ok b' =>
      if mongo_writes env
      then Ok (filter (λ m, ¬ conversation a' b' m) coll,
               length (filter (conversation a' b') coll))
      else Throw MongoError
    | Throw e, _ => Throw e
    | Ok _, Throw e => Throw e
    end.
Proof.
  destruct (castObjectId a) as [a'|ea] eqn:Ha, (castObjectId b) as [b'|eb] eqn:Hb.
  - destruct (mongo_writes env) eqn:Hup; [by apply deleteMany_between|].
    unfold Message.deleteMany, mongo_write. by rewrite (cast_between _ _ _ _ Ha Hb), Hup.
  - unfold Message.deleteMany, Api.between. simpl. unfold Message.cast_cond. simpl.
    by rewrite Ha, Hb.
  - unfold Message.deleteMany, Api.between. simpl. unfold Message.cast_cond. simpl.
    by rewrite Ha.
  - unfold Message.deleteMany, Api.between. simpl. unfold Message.cast_cond. simpl.
    by rewrite Ha.
Qed.

(** X1: the two users of a conversation are given the same history:
    [getMessages] for [U] about [C] answers what it answers for [C] about
    [U], also when it fails. *)
Theorem getMessages_symmetric env db U C :
  Js.falsy_string U = false → Js.falsy_string C = false →
  Api.getMessages env db U (Some C) = Api.getMessages env db C (Some U).
Proof.
  intros HU HC. unfold Api.getMessages. rewrite HU, HC, !find_between_cases.
  destruct (castObjectId U) as [u|], (castObjectId C) as [c|]; try done.
  destruct (mongo_reads env); [|done].
  by rewrite (list_filter_iff _ _ _ (conversation_sym u c)).
Qed.

Lemma getMessages_symmetric_witness :
  Api.getMessages (Sample.env false 0 Sample.id3) Sample.two_chats Sample.A (Some Sample.B)
  = Api.getMessages (Sample.env false 0 Sample.id3) Sample.two_chats Sample.B (Some Sample.A).
Proof.
  apply (getMessages_symmetric (Sample.env false 0 Sample.id3) Sample.two_chats
           Sample.A Sample.B); reflexivity.
Defined.

(** X2: for a request whose body gives the id of the counterpart as a
    string, or gives none ([id]; what a body holds there that is no
    string is not covered): [getMessages] answers 400 exactly when the id
    is missing or the empty string, 200 exactly when the database answers
    and both the user's id and that string are ObjectIds, and 500 with
    "Server or database issue" in every other case. *)
Theorem getMessages_status env db userId id :
  let res := Api.getMessages env db userId id in
  (Api.status res = 400%nat ↔ Js.falsy id = true)
  ∧ (Api.status res = 200%nat ↔
       mongo_reads env = true ∧ (∃ u, castObjectId userId = Ok u)
       ∧ ∃ C c, id = Some C ∧ castObjectId C = Ok c)
  ∧ (Api.status res ≠ 400%nat → Api.status res ≠ 200%nat →
       res = Api.server_or_database_issue).
Proof.
  unfold Api.getMessages. destruct id as [C|]; simpl.
  - destruct (Js.falsy_string C) eqn:HC; simpl.
    + split; [done|]. split; [|done]. split; [done|].
      intros (_ & _ & C' & c & [= <-] & Hc%castObjectId_truthy). congruence.
    + rewrite find_between_cases.
      destruct (castObjectId userId) as [u|] eqn:Hu, (castObjectId C) as [c|] eqn:Hc,
        (mongo_reads env) eqn:Hup; simpl;
        (split; [done|]); (split; [|done]);
        (split; [try done; eauto 10|]);
        try (intros (? & [? ?] & ? & ? & [= <-] & ?); congruence).
  - split; [done|]. split; [|done]. split; [done|].
    by intros (_ & _ & C' & c & [=] & _).
Qed.

(** ** [deleteDm], outside its good case *)

(** [deleteDm] in every case: the filtered collection and 200, or the
    database as it was with 400 or 500. *)
Lemma deleteDm_cases env db userId dmId :
  Api.deleteDm env db userId dmId
  = match dmId with
    | Some C =>
      if Js.falsy_string C
      then (db, {| Api.status := 400; Api.body := Api.json_message "Missing or invalid dmId" |})
      else
        match castObjectId userId, castObjectId C with
        | Ok u, Ok c =>
          if mongo_writes env
          then ({| users := users db;
                   messages := filter (λ m, ¬ conversation u c m) (messages db) |},
                {| Api.status := 200; Api.body := Api.json_message "DM deleted successfully" |})
          else (db, Api.server_or_database_issue)
        | _, _ => (db, Api.server_or_database_issue)
        end
    | None => (db, {| Api.status := 400; Api.body := Api.json_message "Missing or invalid dmId" |})
    end.
Proof.
  unfold Api.deleteDm. destruct dmId as [C|]; [|done].
  destruct (Js.falsy_string C); [done|]. rewrite deleteMany_between_cases.
  by destruct (castObjectId userId), (castObjectId C), (mongo_writes env).
Qed.

(** X3: [deleteDm] never touches the users and never adds a message; it
    changes the database only when it answers 200; it answers 400
    exactly when [dmId] is missing or empty, and 200 exactly when the
    database takes writes and both ids are ObjectIds. *)
Theorem deleteDm_status env db userId dmId :
  let db' := (Api.deleteDm env db userId dmId).1 in
  let res := (Api.deleteDm env db userId dmId).2 in
  users db' = users db
  ∧ messages db' `sublist_of` messages db
  ∧ (Api.status res ≠ 200%nat → db' = db)
  ∧ (Api.status res = 400%nat ↔ Js.falsy dmId = true)
  ∧ (Api.status res = 200%nat ↔
       mongo_writes env = true ∧ (∃ u, castObjectId userId = Ok u)
       ∧ ∃ C c, dmId = Some C ∧ castObjectId C = Ok c).
Proof.
  rewrite deleteDm_cases. destruct dmId as [C|]; simpl.
  - destruct (Js.falsy_string C) eqn:HC; simpl.
    + repeat split; try done.
      intros (_ & _ & C' & c & [= <-] & Hc%castObjectId_truthy). congruence.
    + destruct (castObjectId userId) as [u|] eqn:Hu, (castObjectId C) as [c|] eqn:Hc,
        (mongo_writes env) eqn:Hup; simpl;
        repeat split; try done; eauto 10 using sublist_filter;
        try (intros (? & [? ?] & ? & ? & [= <-] & ?); congruence).
  - repeat split; try done. by intros (_ & _ & C' & c & [=] & _).
Qed.

(** X4: [deleteDm] for [U] and [C] leaves every other conversation as it
    is: the history of a pair other than [U] and [C] reads the same
    before and after. *)
Theorem deleteDm_keeps_other_conversations env env' db U C u c X Y x y :
  castObjectId U = Ok u → castObjectId C = Ok c →
  castObjectId X = Ok x → castObjectId Y = Ok y →
  ¬ ((x = u ∧ y = c) ∨ (x = c ∧ y = u)) →
  Api.getMessages env' (Api.deleteDm env db U (Some C)).1 X (Some Y)
  = Api.getMessages env' db X (Some Y).
Proof.
  intros HU HC HX HY Hother. rewrite deleteDm_cases, HU, HC.
  rewrite (castObjectId_truthy _ _ HC).
  destruct (mongo_writes env); [|done]. simpl.
  unfold Api.getMessages. rewrite (castObjectId_truthy _ _ HY), !find_between_cases, HX, HY.
  destruct (mongo_reads env'); [|done]. simpl.
  rewrite list_filter_filter_l; [done|].
  intros m [[Hs Hr]|[Hs Hr]] [[Hs' Hr']|[Hs' Hr']]; apply Hother;
    [left|right|right|left]; split; congruence.
Qed.

Lemma deleteDm_keeps_other_conversations_witness :
  let env := Sample.env false 0 Sample.id3 in
  Api.getMessages env (Api.deleteDm env Sample.two_chats Sample.A (Some Sample.B)).1
    Sample.A (Some Sample.C)
  = Api.getMessages env Sample.two_chats Sample.A (Some Sample.C).
Proof.
  intros env.
  apply (deleteDm_keeps_other_conversations env env Sample.two_chats
           Sample.A Sample.B Sample.A Sample.B Sample.A Sample.C Sample.A Sample.C);
    try reflexivity.
  intros [[_ H]|[H _]]; discriminate H.
Defined.

(** X5: it does not matter which of the two users deletes a
    conversation: [deleteDm] for [U] about [C] and for [C] about [U]
    leave the same database and give the same answer. *)
Theorem deleteDm_symmetric env db U C :
  Js.falsy_string U = false → Js.falsy_string C = false →
  Api.deleteDm env db U (Some C) = Api.deleteDm env db C (Some U).
Proof.
  intros HU HC. rewrite !deleteDm_cases, HU, HC.
  destruct (castObjectId U) as [u|], (castObjectId C) as [c|]; try done.
  destruct (mongo_writes env); [|done].
  rewrite (list_filter_iff (λ m, ¬ conversation u c m) (λ m, ¬ conversation c u m)); [done|].
  intros m. by rewrite (conversation_sym u c).
Qed.

Lemma deleteDm_symmetric_witness :
  Api.deleteDm (Sample.env false 0 Sample.id3) Sample.two_chats Sample.A (Some Sample.B)
  = Api.deleteDm (Sample.env false 0 Sample.id3) Sample.two_chats Sample.B (Some Sample.A).
Proof.
  apply (deleteDm_symmetric (Sample.env false 0 Sample.id3) Sample.two_chats
           Sample.A Sample.B); reflexivity.
Defined.

(** ** [sendMessage] and the histories *)

Lemma find_is_Some {A} (p : A → bool) (l : list A) x :
  x ∈ l → p x = true → ∃ y, List.find p l = Some y ∧ p y = true ∧ y ∈ l.
Proof.
  induction l as [|a l IH]; [by intros ?%elem_of_nil|].
  intros Hx Hp. simpl. destruct (p a) eqn:Ha.
  - exists a. split; [done|]. split; [done|]. apply list_elem_of_here.
  - apply elem_of_cons in Hx as [->|Hx]; [congruence|].
    destruct (IH Hx Hp) as (y & ? & ? & ?). exists y. split; [done|]. split; [done|].
    by apply list_elem_of_further.
Qed.


(** X6: a message that has been saved is one more record of the history
    of its sender and recipient: [getMessages] for them afterwards answers
    with the records it answered with before and the new one, sorted; in a
    conversation that was empty it is the only record. *)
Theorem send_then_fetch env env' um db data db' out m A B :
  Socket.sendMessage env um db data = (db', out, Socket.Saved m) →
  Socket.sender data = Some A → Socket.recipient data = Some B →
  mongo_reads env' = true →
  ∃ before after,
    Api.getMessages env' db A (Some B)
      = {| Api.status := 200; Api.body := Api.json_messages before |}
    ∧ Api.getMessages env' db' A (Some B)
      = {| Api.status := 200; Api.body := Api.json_messages after |}
    ∧ after ≡ₚ before ++ [m]
    ∧ StronglySorted (λ m1 m2, Message.timestamp m1 ≤ Message.timestamp m2) after
    ∧ (before = [] → after = [m]).
Proof.
  intros (s & r & c & us & ur & Hs & Hr & Hc & Hus & Hur & Hm & _ & -> & _)
    %sendMessage_Saved_inv HA HB Hup.
  assert (s = A) as -> by congruence. assert (r = B) as -> by congruence.
  apply findById_Some_inv in Hus as [_ Hcs].
  apply findById_Some_inv in Hur as [_ Hcr].
  unfold Api.getMessages. rewrite (castObjectId_truthy _ _ Hcr), !find_between_cases.
  rewrite Hcs, Hcr, Hup. simpl. eexists _, _. split; [done|]. split; [done|].
  assert (conversation (User._id us) (User._id ur) m) as Hconv by (left; by subst m).
  rewrite filter_app, (filter_cons _ m), decide_True by done. simpl.
  split; [|split].
  - by rewrite !merge_sort_Permutation.
  - apply (StronglySorted_merge_sort (Message.before Message.ascending)).
  - intros Hnil.
    assert (filter (conversation (User._id us) (User._id ur)) (messages db) = []) as ->; [|done].
    apply Permutation_nil_r. by rewrite <- (merge_sort_Permutation (Message.before Message.ascending)), Hnil.
Qed.

(** A writes to C once more: the history of A and C has the two
    messages. *)
Lemma send_then_fetch_witness :
  let env := Sample.env false 3000 Sample.id3 in
  let m := Sample.text Sample.id3 Sample.A Sample.C "still there?" 3000 in
  ∃ db' out after,
    Socket.sendMessage env ∅ Sample.two_chats (Sample.say Sample.A Sample.C "still there?")
      = (db', out, Socket.Saved m)
    ∧ Api.getMessages env db' Sample.A (Some Sample.C)
      = {| Api.status := 200; Api.body := Api.json_messages after |}
    ∧ after ≡ₚ [Sample.text Sample.id2 Sample.A Sample.C "hi C" 2000] ++ [m].
Proof.
  intros env m.
  destruct (send_then_fetch env env ∅ Sample.two_chats
              (Sample.say Sample.A Sample.C "still there?") _ _ m Sample.A Sample.C
              eq_refl eq_refl eq_refl eq_refl)
    as (before & after & Hb & Ha & Hperm & _).
  eexists _, _, after. split; [reflexivity|]. split; [exact Ha|].
  injection Hb as <-. exact Hperm.
Defined.

(** X7: a [sendMessage] event leaves the history of every conversation
    its message is not part of as it is, and so every history when it
    saves nothing. *)
Theorem sendMessage_keeps_other_conversations env env' um db data X Y x y :
  castObjectId X = Ok x → castObjectId Y = Ok y →
  (∀ m, (Socket.sendMessage env um db data).2 = Socket.Saved m → ¬ conversation x y m) →
  Api.getMessages env' (Socket.sendMessage env um db data).1.1 X (Some Y)
  = Api.getMessages env' db X (Some Y).
Proof.
  intros HX HY Hother.
  destruct (Socket.sendMessage env um db data) as [[db' out] o] eqn:Hrun. simpl in *.
  assert ((∃ m, o = Socket.Saved m) ∨ ∀ m, o ≠ Socket.Saved m) as [[m ->]|Hno].
  { destruct o; eauto; right; done. }
  - apply sendMessage_Saved_inv in Hrun as (s & r & c & us & ur & _ & _ & _ & _ & _ & _ & _ & -> & _).
    unfold Api.getMessages. rewrite (castObjectId_truthy _ _ HY), !find_between_cases, HX, HY.
    destruct (mongo_reads env'); [|done]. simpl.
    by rewrite filter_app, (filter_cons _ m), decide_False, app_nil_r by by apply Hother.
  - by destruct (sendMessage_not_Saved _ _ _ _ _ _ _ Hrun Hno) as [-> _].
Qed.

(** A writes to C: the history of A and B is what it was. *)
Lemma sendMessage_keeps_other_conversations_witness :
  let env := Sample.env false 3000 Sample.id3 in
  Api.getMessages env
    (Socket.sendMessage env ∅ Sample.two_chats (Sample.say Sample.A Sample.C "hm")).1.1
    Sample.A (Some Sample.B)
  = Api.getMessages env Sample.two_chats Sample.A (Some Sample.B).
Proof.
  intros env.
  apply (sendMessage_keeps_other_conversations env env ∅ Sample.two_chats
           (Sample.say Sample.A Sample.C "hm") Sample.A Sample.B Sample.A Sample.B);
    [reflexivity | reflexivity |].
  intros m [= <-] [[_ H]|[H _]]; discriminate H.
Defined.





(** X10: a message is pushed to nobody but the two it is about: an event
    gives rise to at most two emits, each carries the message that has
    just been saved, and each goes to a live socket of the user the
    payload names as sender or as recipient. *)
Theorem emits_only_to_participants env s db data :
  Socket.presence_live s →
  let '(db', out, o) := Socket.sendMessage env (Socket.userMap s) db data in
  (length out ≤ 2)%nat
  ∧ ∀ x, x ∈ out →
      o = Socket.Saved (Socket.message x)
      ∧ ∃ p, (Socket.sender data = Some p ∨ Socket.recipient data = Some p)
             ∧ Socket.sockets s !! Socket.to x = Some p.
Proof.
  intros Hlive.
  destruct (Socket.sendMessage env (Socket.userMap s) db data) as [[db' out] o] eqn:Hrun.
  assert ((∃ m, o = Socket.Saved m) ∨ ∀ m, o ≠ Socket.Saved m) as [[m ->]|Hno].
  { destruct o; eauto; right; done. }
  - apply sendMessage_Saved_inv in Hrun
      as (a & b & c & us & ur & Ha & Hb & _ & _ & _ & _ & _ & _ & ->).
    unfold Socket.fanout. split.
    + rewrite length_app. repeat case_match; simpl; lia.
    + intros x [Hx|Hx]%elem_of_app.
      * destruct (Socket.userMap s !! b) as [h|] eqn:Hh; [|by apply elem_of_nil in Hx].
        apply list_elem_of_singleton in Hx as ->. simpl. split; [done|].
        exists b. split; [by right|]. by apply Hlive.
      * destruct (Socket.userMap s !! a) as [h|] eqn:Hh; [|by apply elem_of_nil in Hx].
        apply list_elem_of_singleton in Hx as ->. simpl. split; [done|].
        exists a. split; [by left|]. by apply Hlive.
  - destruct (sendMessage_not_Saved _ _ _ _ _ _ _ Hrun Hno) as [-> ->].
    split; [simpl; lia|]. by intros x ?%elem_of_nil.
Qed.

(** ** More on sockets and presence *)

Section sockets.
Context {verifier : TokenVerifier} {parser : CookieParser}.


(** X12: a connection that comes and goes leaves no trace: if [userMap]
    had nothing for the user and the id was new, the state after the
    connect and the disconnect is the state before, and nothing has been
    emitted. *)
Theorem connect_disconnect_round_trip env env' s id hdr U :
  Socket.authenticate env hdr = Socket.Accepted U →
  Socket.userMap s !! U = None → Socket.sockets s !! id = None →
  Socket.run s [(env, Socket.Connect id hdr); (env', Socket.Disconnect id)] = (s, []).
Proof.
  intros Hauth HU Hid. unfold Socket.run.
  rewrite (step_Connect_Accepted _ _ _ _ _ Hauth).
  rewrite (step_Disconnect_live _ _ _ U) by apply lookup_insert_eq.
  unfold Socket.disconnect, Socket.connection. simpl.
  rewrite !delete_insert_id by done. by destruct s.
Qed.

(** Socket events only ever add to the messages. *)
Lemma step_appends env s e :
  let s' := (Socket.step env s e).1 in
  users (Socket.db s') = users (Socket.db s)
  ∧ messages (Socket.db s) `prefix_of` messages (Socket.db s').
Proof.
  destruct e as [id hdr|id|id data]; simpl.
  - by destruct (Socket.authenticate env hdr).
  - by destruct (Socket.sockets s !! id).
  - destruct (Socket.sockets s !! id); [|done].
    destruct (sendMessage_db env (Socket.userMap s) (Socket.db s) data) as [Hu Hm].
    destruct (Socket.sendMessage _ _ _ _) as [[db' out] o]. simpl in *.
    split; [done|]. destruct Hm as [->|(m & -> & _)]; [done|]. by apply prefix_app_r.
Qed.

(** X14: whatever comes in over the sockets, no stored message is ever
    changed or removed and the users stay as they are: after any run of
    socket events the messages there were are still there, in their
    order, before the new ones. *)
Theorem socket_events_append_only s es :
  let s' := (Socket.run s es).1 in
  users (Socket.db s') = users (Socket.db s)
  ∧ messages (Socket.db s) `prefix_of` messages (Socket.db s').
Proof.
  revert s. induction es as [|[env e] es IH]; intros s; [done|].
  simpl. pose proof (step_appends env s e) as [Hu Hm].
  destruct (Socket.step env s e) as [s1 out1]. simpl in *.
  specialize (IH s1). destruct (Socket.run s1 es) as [s2 out2]. simpl in *.
  destruct IH as [Hu' Hm']. split; [congruence|]. by etrans.
Qed.

End sockets.

(** B has connected as 4; A writes to B. *)
Lemma emits_only_to_participants_witness :
  let env := Sample.env false 3000 Sample.id3 in
  let s := (@Socket.step Sample.verifier Sample.parser env
              (Socket.initial Sample.two_chats)
              (Socket.Connect 4%N (Some "jwt=token-of-b"))).1 in
  let '(db', out, o) :=
    Socket.sendMessage env (Socket.userMap s) Sample.two_chats
      (Sample.say Sample.A Sample.B "hi again") in
  (length out ≤ 2)%nat
  ∧ ∀ x, x ∈ out →
      o = Socket.Saved (Socket.message x)
      ∧ ∃ p, (Some Sample.A = Some p ∨ Some Sample.B = Some p)
             ∧ Socket.sockets s !! Socket.to x = Some p.
Proof.
  intros env s.
  apply (emits_only_to_participants env s Sample.two_chats
           (Sample.say Sample.A Sample.B "hi again")).
  apply (@reachable_presence_live Sample.verifier Sample.parser Sample.two_chats).
  apply Socket.reachable_step; [apply Socket.reachable_start | reflexivity].
Defined.


(** A connects as 3 and leaves. *)
Lemma connect_disconnect_round_trip_witness :
  let env := Sample.env false 0 Sample.id3 in
  let s := Socket.initial Sample.two_chats in
  @Socket.run Sample.verifier Sample.parser s
    [(env, Socket.Connect 3%N (Some "jwt=token-of-a")); (env, Socket.Disconnect 3%N)]
  = (s, []).
Proof.
  intros env s.
  apply (@connect_disconnect_round_trip Sample.verifier Sample.parser env env s 3%N
           (Some "jwt=token-of-a") Sample.A); reflexivity.
Defined.

(** ** Accounts: [signup] and [login] *)

Lemma find_email_None (us : list User.t) e :
  List.find (λ u, bool_decide (User.email u = e)) us = None
  ↔ ∀ u, u ∈ us → User.email u ≠ e.
Proof.
  split.
  - intros Hnone u Hu%list_elem_of_In Heq.
    pose proof (find_none _ _ Hnone u Hu) as Hf. simpl in Hf.
    by rewrite bool_decide_eq_true_2 in Hf.
  - intros Hall. destruct (List.find _ us) as [u|] eqn:Hf; [|done].
    apply find_some in Hf as [Hu%list_elem_of_In Heq%bool_decide_eq_true]. by destruct (Hall u Hu).
Qed.

Lemma findOne_cases env us e :
  User.findOne env us e
  = if mongo_reads env then Ok (List.find (λ u, bool_decide (User.email u = e)) us)
    else Throw MongoError.
Proof. done. Qed.

(** [save] of a user in every case. *)
Lemma User_save_cases env us u :
  User.save env us u
  = if Js.falsy_string (User.email u) then Throw (ValidationError "email")
    else if Js.falsy_string (User.password u) then Throw (ValidationError "password")
    else if mongo_writes env then
      if existsb (λ v, bool_decide (User._id v = User._id u)
                       || bool_decide (User.email v = User.email u)) us
      then Throw MongoError else Ok (us ++ [u])
    else Throw MongoError.
Proof.
  unfold User.save, User.validate, mongo_write.
  by destruct (Js.falsy_string (User.email u)), (Js.falsy_string (User.password u)).
Qed.

Lemma existsb_taken_false (us : list User.t) u :
  existsb (λ v, bool_decide (User._id v = User._id u)
                || bool_decide (User.email v = User.email u)) us = false
  ↔ ∀ v, v ∈ us → User._id v ≠ User._id u ∧ User.email v ≠ User.email u.
Proof.
  rewrite <- not_true_iff_false, existsb_exists. split.
  - intros Hno v Hv. split; intros Heq; apply Hno; exists v;
      (split; [by apply list_elem_of_In|]);
      rewrite orb_true_iff, !bool_decide_eq_true; auto.
  - intros Hall (v & Hv%list_elem_of_In & Ht).
    rewrite orb_true_iff, !bool_decide_eq_true in Ht.
    destruct (Hall v Hv). tauto.
Qed.

Section accounts.
Context {hasher : PasswordHasher} {signer : TokenSigner}.

(** [signup] once the email and the password are there and the lookup of
    the email has answered. *)
Lemma signup_cases env db e p :
  Js.falsy_string e = false → Js.falsy_string p = false → mongo_reads env = true →
  Auth.signup env db (Some e) (Some p)
  = match List.find (λ u, bool_decide (User.email u = e)) (users db) with
    | Some _ => (db, Http.plain 409 (Http.message "The email is already in use"))
    | None =>
      let newUser := User.new env e (bcrypt_hash p 10) in
      let cookie :=
        Some (Http.cookie_jwt
                (jwt_sign {| Jwt.email := e; Jwt.userId := fresh_id env |} (SECRET_KEY env))
                3600000 true) in
      match User.save env (users db) newUser with
      | Ok users' =>
        ({| users := users'; messages := messages db |},
         {| Http.status := 201; Http.body := Http.message "User registered successfully";
            Http.cookie := cookie |})
      | Throw _ =>
        (db, {| Http.status := 500; Http.body := Http.message "Server or database issue";
                Http.cookie := cookie |})
      end
    end.
Proof.
  intros He Hp Hup. unfold Auth.signup. rewrite He, Hp, findOne_cases, Hup. simpl.
  by destruct (List.find _ (users db)).
Qed.

(** X15: for a body whose email and password are strings where they are
    there (what is no string is not covered): [signup] answers 400
    exactly when the email or the password is missing or the empty
    string, and 409 exactly when both are there, the database answers and
    a user has that string as email; it changes the database only when it
    answers 201, and then only the users; and a cookie is set only on the
    answers 201 and 500. *)
Theorem signup_outcomes env db email password :
  let db' := (Auth.signup env db email password).1 in
  let res := (Auth.signup env db email password).2 in
  (Http.status res = 400%nat ↔ Js.falsy email || Js.falsy password = true)
  ∧ (Http.status res = 409%nat ↔
       Js.falsy email || Js.falsy password = false ∧ mongo_reads env = true
       ∧ ∃ u, u ∈ users db ∧ Some (User.email u) = email)
  ∧ (Http.status res ≠ 201%nat → db' = db)
  ∧ messages db' = messages db
  ∧ (Http.cookie res ≠ None → Http.status res = 201%nat ∨ Http.status res = 500%nat).
Proof.
  assert (∀ e p, Js.falsy_string e || Js.falsy_string p = false →
            Js.falsy_string e = false ∧ Js.falsy_string p = false) as Hboth.
  { intros e p. by destruct (Js.falsy_string e), (Js.falsy_string p). }
  destruct email as [e|]; [destruct password as [p|]|]; cbn [Js.falsy].
  - destruct (Js.falsy_string e || Js.falsy_string p) eqn:Hf.
    + unfold Auth.signup. rewrite ?Hf. simpl. repeat split; try done. by intros (? & _).
    + destruct (Hboth e p Hf) as [He Hp]. destruct (mongo_reads env) eqn:Hup.
      * rewrite (signup_cases env db e p He Hp Hup).
        destruct (List.find _ (users db)) as [u|] eqn:Hfind.
        -- apply find_some in Hfind as [Hu%list_elem_of_In Heq%bool_decide_eq_true].
           simpl. repeat split; try done. exists u. by subst e.
        -- simpl. rewrite find_email_None in Hfind.
           destruct (User.save env (users db) _) as [users'|err]; simpl;
             repeat split; try done; auto;
             intros (_ & _ & u & Hu & [= Heq]); by destruct (Hfind u Hu).
      * unfold Auth.signup. rewrite ?Hf, findOne_cases, Hup. simpl.
        repeat split; try done. by intros (_ & ? & _).
  - rewrite orb_true_r. simpl. repeat split; try done. by intros (? & _).
  - simpl. repeat split; try done. by intros (? & _).
Qed.

(** A [signup] that goes through: with an email no user has, an id of
    the driver no user has and a database that answers and takes writes,
    the answer is 201, the user is put after the others with the hash of
    the password, without names or color and with [profileSetup] false,
    and the cookie holds a token signed for the email and the new id. *)
Lemma signup_registers env db e p :
  Js.falsy_string e = false → Js.falsy_string p = false →
  Js.falsy_string (bcrypt_hash p 10) = false →
  mongo_reads env = true → mongo_writes env = true →
  (∀ u, u ∈ users db → User.email u ≠ e ∧ User._id u ≠ fresh_id env) →
  Auth.signup env db (Some e) (Some p)
  = ({| users := users db ++
          [{| User._id := fresh_id env; User.email := e;
              User.password := bcrypt_hash p 10; User.firstName := None;
              User.lastName := None; User.color := None; User.profileSetup := false |}];
        messages := messages db |},
     {| Http.status := 201; Http.body := Http.message "User registered successfully";
        Http.cookie :=
          Some (Http.cookie_jwt
                  (jwt_sign {| Jwt.email := e; Jwt.userId := fresh_id env |} (SECRET_KEY env))
                  3600000 true) |}).
Proof.
  intros He Hp Hh Hup Hw Hfree. rewrite (signup_cases env db e p He Hp Hup).
  assert (List.find (λ u, bool_decide (User.email u = e)) (users db) = None) as ->.
  { apply find_email_None. intros u Hu. by destruct (Hfree u Hu). }
  cbv zeta. rewrite User_save_cases, (proj2 (existsb_taken_false _ _)).
  - simpl. by rewrite He, Hh, Hw.
  - intros v Hv. simpl. destruct (Hfree v Hv). done.
Qed.

(** X16: the cookie is set before the user is saved: when the save
    fails (here: the database takes no writes), the answer is 500,
    nothing is stored, and the response still carries a token signed for
    the user that was not stored. *)
Theorem signup_failed_save_keeps_cookie env db e p :
  Js.falsy_string e = false → Js.falsy_string p = false →
  mongo_reads env = true → mongo_writes env = false →
  (∀ u, u ∈ users db → User.email u ≠ e) →
  Auth.signup env db (Some e) (Some p)
  = (db,
     {| Http.status := 500; Http.body := Http.message "Server or database issue";
        Http.cookie :=
          Some (Http.cookie_jwt
                  (jwt_sign {| Jwt.email := e; Jwt.userId := fresh_id env |} (SECRET_KEY env))
                  3600000 true) |}).
Proof.
  intros He Hp Hup Hw Hfree. rewrite (signup_cases env db e p He Hp Hup).
  assert (List.find (λ u, bool_decide (User.email u = e)) (users db) = None) as ->.
  { by apply find_email_None. }
  cbv zeta. rewrite User_save_cases. simpl. rewrite He, Hw.
  by destruct (Js.falsy_string (bcrypt_hash p 10)).
Qed.

End accounts.

Section logging_in.
Context {hasher : PasswordHasher} {signer : TokenSigner}
        {verifier : TokenVerifier} {parser : CookieParser}.

(** [login] once the email and the password are there and the database
    answers. *)
Lemma login_cases env db e p :
  Js.falsy_string e = false → Js.falsy_string p = false → mongo_reads env = true →
  Auth.login env db (Some e) (Some p)
  = match List.find (λ u, bool_decide (User.email u = e)) (users db) with
    | None => Http.plain 404 (Http.message "No user found with the given email")
    | Some user =>
      if bcrypt_compare p (User.password user)
      then
        let token :=
          jwt_sign {| Jwt.email := e; Jwt.userId := User._id user |} (SECRET_KEY env) in
        {| Http.status := 200; Http.body := Http.login_successful token;
           Http.cookie := Some (Http.cookie_jwt token 3600000 false) |}
      else Http.plain 400 (Http.message "Invalid password")
    end.
Proof.
  intros He Hp Hup. unfold Auth.login. rewrite He, Hp, findOne_cases, Hup. simpl.
  destruct (List.find _ (users db)) as [u|]; [|done].
  by destruct (bcrypt_compare p (User.password u)).
Qed.

(** X17: for a body whose email and password are strings where they are
    there (what is no string is not covered): [login] answers 200 exactly
    when both are there and not empty, the database answers, a user has
    that string as email and [bcrypt.compare] accepts the password for
    the hash of the first such user; the token of the body is then the
    token of the cookie, signed for that user; on every other answer no
    cookie is set; and the answer is 404 exactly when both are there and
    not empty, the database answers and no user has that string as
    email. *)
Theorem login_outcomes env db email password :
  let res := Auth.login env db email password in
  (Http.status res = 200%nat ↔
     mongo_reads env = true
     ∧ ∃ e p u, email = Some e ∧ password = Some p
         ∧ Js.falsy_string e = false ∧ Js.falsy_string p = false
         ∧ List.find (λ u, bool_decide (User.email u = e)) (users db) = Some u
         ∧ bcrypt_compare p (User.password u) = true)
  ∧ (Http.status res = 200%nat →
     ∃ e u token, email = Some e ∧ u ∈ users db ∧ User.email u = e
       ∧ token = jwt_sign {| Jwt.email := e; Jwt.userId := User._id u |} (SECRET_KEY env)
       ∧ Http.body res = Http.login_successful token
       ∧ Http.cookie res = Some (Http.cookie_jwt token 3600000 false))
  ∧ (Http.status res ≠ 200%nat → Http.cookie res = None)
  ∧ (Http.status res = 404%nat ↔
       Js.falsy email || Js.falsy password = false ∧ mongo_reads env = true
       ∧ ∀ u, u ∈ users db → Some (User.email u) ≠ email).
Proof.
  assert (∀ e p, Js.falsy_string e || Js.falsy_string p = false →
            Js.falsy_string e = false ∧ Js.falsy_string p = false) as Hboth.
  { intros e p. by destruct (Js.falsy_string e), (Js.falsy_string p). }
  destruct email as [e|]; [destruct password as [p|]|]; cbn [Js.falsy].
  - destruct (Js.falsy_string e || Js.falsy_string p) eqn:Hf.
    + unfold Auth.login. rewrite ?Hf. simpl.
      split; [split; [done|]|split; [done|split; [done|split; [done|]]]].
      * intros (_ & e' & p' & u & [= <-] & [= <-] & He & Hp & _).
        by rewrite He, Hp in Hf.
      * by intros (? & _).
    + destruct (Hboth e p Hf) as [He Hp]. destruct (mongo_reads env) eqn:Hup.
      * rewrite (login_cases env db e p He Hp Hup).
        destruct (List.find _ (users db)) as [u|] eqn:Hfind.
        -- pose proof Hfind as [Hu%list_elem_of_In Heq%bool_decide_eq_true]%find_some.
           destruct (bcrypt_compare p (User.password u)) eqn:Hcmp; simpl.
           ++ split; [split; [intros _; split; [done|]; by exists e, p, u|done]|].
              split; [intros _; by eexists e, u, _|]. split; [done|].
              split; [done|]. intros (_ & _ & Hall). by destruct (Hall u Hu); subst e.
           ++ split; [split; [done|]|split; [done|split; [done|split; [done|]]]].
              ** intros (_ & e' & p' & u' & [= <-] & [= <-] & _ & _ & Hf' & Hc).
                 congruence.
              ** intros (_ & _ & Hall). by destruct (Hall u Hu); subst e.
        -- simpl. rewrite find_email_None in Hfind.
           split; [split; [done|]|split; [done|split; [done|split; [intros _|done]]]].
           ++ intros (_ & e' & p' & u' & [= <-] & _ & _ & _ & Hf' & _).
              apply find_some in Hf' as [Hu%list_elem_of_In Heq%bool_decide_eq_true].
              by destruct (Hfind u' Hu).
           ++ split; [done|]. split; [done|].
              intros u Hu [= Heq]. by destruct (Hfind u Hu).
      * unfold Auth.login. rewrite ?Hf, findOne_cases, Hup. simpl.
        split; [split; [done|]|split; [done|split; [done|split; [done|]]]].
        -- by intros (? & _).
        -- by intros (_ & ? & _).
  - rewrite orb_true_r. simpl.
    split; [split; [done|]|split; [done|split; [done|split; [done|]]]].
    + by intros (_ & e' & p' & u & _ & [=] & _).
    + by intros (? & _).
  - simpl.
    split; [split; [done|]|split; [done|split; [done|split; [done|]]]].
    + by intros (_ & e' & p' & u & [=] & _).
    + by intros (? & _).
Qed.

Lemma find_app_new (us : list User.t) u e :
  (∀ v, v ∈ us → User.email v ≠ e) → User.email u = e →
  List.find (λ v, bool_decide (User.email v = e)) (us ++ [u]) = Some u.
Proof.
  intros Hfree Hu. induction us as [|a us IH]; simpl.
  - by rewrite bool_decide_eq_true_2.
  - rewrite bool_decide_eq_false_2.
    + apply IH. intros v Hv. apply Hfree. by apply list_elem_of_further.
    + apply Hfree, list_elem_of_here.
Qed.

(** X18: who has signed up can log in: after a [signup] that went
    through, [login] with the same email and password answers 200 with a
    token for the id [signup] gave, provided [bcrypt.compare] accepts a
    password for its own hash; and with a password [bcrypt.compare]
    refuses for that hash it answers 400 "Invalid password". *)
Theorem signup_then_login env env' db e p :
  Js.falsy_string e = false → Js.falsy_string p = false →
  Js.falsy_string (bcrypt_hash p 10) = false →
  mongo_reads env = true → mongo_writes env = true →
  (∀ u, u ∈ users db → User.email u ≠ e ∧ User._id u ≠ fresh_id env) →
  mongo_reads env' = true →
  bcrypt_compare p (bcrypt_hash p 10) = true →
  let db' := (Auth.signup env db (Some e) (Some p)).1 in
  let token := jwt_sign {| Jwt.email := e; Jwt.userId := fresh_id env |} (SECRET_KEY env') in
  Auth.login env' db' (Some e) (Some p)
  = {| Http.status := 200; Http.body := Http.login_successful token;
       Http.cookie := Some (Http.cookie_jwt token 3600000 false) |}
  ∧ ∀ p', Js.falsy_string p' = false → bcrypt_compare p' (bcrypt_hash p 10) = false →
      Auth.login env' db' (Some e) (Some p')
      = Http.plain 400 (Http.message "Invalid password").
Proof.
  intros He Hp Hh Hup Hw Hfree Hup' Hlaw.
  rewrite (signup_registers env db e p He Hp Hh Hup Hw Hfree). cbn [fst].
  assert (∀ u, u ∈ users db → User.email u ≠ e) as Hfree'.
  { intros u Hu. by destruct (Hfree u Hu). }
  pose (new := {| User._id := fresh_id env; User.email := e;
                  User.password := bcrypt_hash p 10; User.firstName := None;
                  User.lastName := None; User.color := None;
                  User.profileSetup := false |}).
  pose proof (find_app_new (users db) new e Hfree' eq_refl) as Hfind.
  subst new. split.
  - rewrite (login_cases env' _ e p He Hp Hup'). cbn [users].
    rewrite Hfind. simpl. by rewrite Hlaw.
  - intros p' Hp' Hwrong. rewrite (login_cases env' _ e p' He Hp' Hup'). cbn [users].
    rewrite Hfind. simpl. by rewrite Hwrong.
Qed.

(** X19: the token of a [login] lets its user in: if [jwt.verify] reads
    back what [jwt.sign] has signed for the users of the database, then
    with the token as [jwt] cookie [verifyToken] passes the request on as
    the user who logged in, and the handshake of a socket accepts the
    connection as that user. *)
Theorem login_token_authenticates env db email password token :
  Http.body (Auth.login env db email password) = Http.login_successful token →
  Js.falsy_string token = false →
  (∀ u, u ∈ users db →
     jwt_verify
       (jwt_sign {| Jwt.email := User.email u; Jwt.userId := User._id u |} (SECRET_KEY env))
       (SECRET_KEY env)
     = Some {| Jwt.email := User.email u; Jwt.userId := User._id u |}) →
  ∃ u, u ∈ users db ∧ Some (User.email u) = email
    ∧ (∀ A (reject : Api.response → A) (next : string → A),
         Api.verifyToken env (Some token) reject next = next (User._id u))
    ∧ (∀ cookie_header,
         cookie_parse (Js.or_else cookie_header "") !! "jwt" = Some token →
         Socket.authenticate env cookie_header = Socket.Accepted (User._id u)).
Proof.
  intros Hbody Htoken Hlaw.
  assert (∃ u, u ∈ users db ∧ Some (User.email u) = email
               ∧ token = jwt_sign {| Jwt.email := User.email u; Jwt.userId := User._id u |}
                           (SECRET_KEY env)) as (u & Hu & He & ->).
  { revert Hbody. unfold Auth.login.
    destruct email as [e|], password as [p|]; simpl; try done.
    destruct (Js.falsy_string e || Js.falsy_string p); simpl; [done|].
    rewrite findOne_cases. destruct (mongo_reads env); simpl; [|done].
    destruct (List.find _ (users db)) as [u|] eqn:Hfind; simpl; [|done].
    apply find_some in Hfind as [Hu%list_elem_of_In Heq%bool_decide_eq_true].
    destruct (bcrypt_compare p (User.password u)); simpl; [|done].
    intros [= <-]. exists u. by subst e. }
  specialize (Hlaw u Hu).
  exists u. split; [done|]. split; [done|]. split.
  - intros A reject next. unfold Api.verifyToken. by rewrite Htoken, Hlaw.
  - intros hdr Hhdr. unfold Socket.authenticate. by rewrite Hhdr, Htoken, Hlaw.
Qed.

End logging_in.

Lemma signup_then_login_witness :
  let env := Sample.env false 5000 Sample.id4 in
  let db' := (@Auth.signup Sample.hasher Sample.signer env Sample.two_chats
                (Some "d@example.com") (Some "pw")).1 in
  Http.status (@Auth.login Sample.hasher Sample.signer env db'
                 (Some "d@example.com") (Some "pw")) = 200%nat
  ∧ @Auth.login Sample.hasher Sample.signer env db' (Some "d@example.com") (Some "pw2")
    = Http.plain 400 (Http.message "Invalid password").
Proof.
  intros env db'.
  destruct (@signup_then_login Sample.hasher Sample.signer env env Sample.two_chats
              "d@example.com" "pw") as [Hin Hwrong]; try reflexivity.
  { intros u Hu.
    repeat (apply elem_of_cons in Hu as [->|Hu]); [..|by apply elem_of_nil in Hu];
      split; discriminate. }
  split.
  - subst db'. by rewrite Hin.
  - apply Hwrong; reflexivity.
Defined.

Lemma signup_failed_save_keeps_cookie_witness :
  let env := {| SECRET_KEY := "secret"; strictQuery := false; mongo_reads := true;
                mongo_writes := false; now := 5000; fresh_id := Sample.id4 |} in
  @Auth.signup Sample.hasher Sample.signer env Sample.two_chats
    (Some "d@example.com") (Some "pw")
  = (Sample.two_chats,
     {| Http.status := 500; Http.body := Http.message "Server or database issue";
        Http.cookie :=
          Some (Http.cookie_jwt "secret/000000000000000000000004/d@example.com"
                  3600000 true) |}).
Proof.
  intros env.
  apply (@signup_failed_save_keeps_cookie Sample.hasher Sample.signer env
           Sample.two_chats "d@example.com" "pw"); try reflexivity.
  intros u Hu.
  repeat (apply elem_of_cons in Hu as [->|Hu]); [..|by apply elem_of_nil in Hu];
    discriminate.
Defined.

(** D logs in and comes back with the token. *)
Lemma login_token_authenticates_witness :
  let env := Sample.env false 6000 Sample.id4 in
  let token := "secret/dddddddddddddddddddddddd/d@example.com" in
  ∃ u, u ∈ users Sample.with_dave ∧ Some (User.email u) = Some "d@example.com"
    ∧ (∀ A (reject : Api.response → A) (next : string → A),
         @Api.verifyToken Sample.reader A env (Some token) reject next = next (User._id u))
    ∧ (∀ cookie_header,
         @cookie_parse Sample.parser (Js.or_else cookie_header "") !! "jwt" = Some token →
         @Socket.authenticate Sample.reader Sample.parser env cookie_header
         = Socket.Accepted (User._id u)).
Proof.
  intros env token.
  apply (@login_token_authenticates Sample.hasher Sample.signer Sample.reader
           Sample.parser env Sample.with_dave (Some "d@example.com") (Some "pw") token);
    try reflexivity.
  intros u Hu.
  repeat (apply elem_of_cons in Hu as [->|Hu]); [..|by apply elem_of_nil in Hu];
    reflexivity.
Defined.

(** ** Profiles: [userinfo] and [updateprofile] *)

(** With keys that are unique, the first document with a key is the
    document with that key. *)
Lemma find_by_key (g : User.t → string) (us : list User.t) u :
  NoDup (g <$> us) → u ∈ us →
  List.find (λ v, bool_decide (g v = g u)) us = Some u.
Proof.
  induction us as [|a us IH]; [by intros _ ?%elem_of_nil|].
  rewrite fmap_cons, NoDup_cons. intros [Ha Hnd] [->|Hu]%elem_of_cons; simpl.
  - by rewrite bool_decide_eq_true_2.
  - rewrite bool_decide_eq_false_2; [by apply IH|].
    intros Heq. apply Ha. rewrite Heq. by apply list_elem_of_fmap_2.
Qed.

Lemma find_by_key_None (g : User.t → string) (us : list User.t) k :
  (∀ v, v ∈ us → g v ≠ k) → List.find (λ v, bool_decide (g v = k)) us = None.
Proof.
  induction us as [|a us IH]; [done|]. intros Hall. simpl.
  rewrite bool_decide_eq_false_2 by apply Hall, list_elem_of_here.
  apply IH. intros v Hv. by apply Hall, list_elem_of_further.
Qed.

(** With keys that are unique, updating the first document with a key
    updates the one document with that key and no other. *)
Lemma update_first_by_key (g : User.t → string) f (us : list User.t) k :
  NoDup (g <$> us) →
  User.update_first (λ v, bool_decide (g v = k)) f us
  = (λ v, if bool_decide (g v = k) then f v else v) <$> us.
Proof.
  induction us as [|a us IH]; [done|].
  rewrite fmap_cons, NoDup_cons. intros [Ha Hnd]. simpl.
  destruct (bool_decide (g a = k)) eqn:Hk.
  - apply bool_decide_eq_true in Hk. f_equal.
    rewrite <- (list_fmap_id us) at 1. apply list_fmap_ext. intros i v Hv.
    rewrite bool_decide_eq_false_2; [done|]. intros Heq. apply Ha.
    rewrite Hk, <- Heq. apply list_elem_of_fmap_2. by eapply list_elem_of_lookup_2.
  - f_equal. by apply IH.
Qed.

(** In a collection with unique ids and emails, having the email of a
    user is having its id. *)
Lemma same_email_same_id db u v :
  users_wf db → u ∈ users db → v ∈ users db →
  User.email v = User.email u ↔ User._id v = User._id u.
Proof.
  intros [Hid Hem] Hu Hv. split; intros Heq.
  - pose proof (find_by_key User.email _ u Hem Hu) as H1.
    pose proof (find_by_key User.email _ v Hem Hv) as H2.
    rewrite Heq in H2. congruence.
  - pose proof (find_by_key User._id _ u Hid Hu) as H1.
    pose proof (find_by_key User._id _ v Hid Hv) as H2.
    rewrite Heq in H2. congruence.
Qed.

(** The sample users have ids and emails of their own. *)
Lemma sample_users_wf : users_wf Sample.two_chats ∧ users_wf Sample.with_dave.
Proof. repeat split; by apply (bool_decide_unpack _). Qed.

(** X20: [userinfo] for the id of a token: 500 "Server error" if the id
    is no ObjectId or the database does not answer, 404 if no user has
    the id, and otherwise 200 with the fields of that user as stored,
    the hash of the password among them, and with [profileSetup: true]
    whatever the stored value is. *)
Theorem userinfo_outcomes env db userId :
  ((∃ e, castObjectId userId = Throw e) ∨ mongo_reads env = false →
     Auth.userinfo env db userId = Http.plain 500 (Http.message "Server error"))
  ∧ (∀ o, mongo_reads env = true → castObjectId userId = Ok o →
       (∀ u, u ∈ users db → User._id u ≠ o) →
       Auth.userinfo env db userId = Http.plain 404 (Http.message "User not found"))
  ∧ (∀ u, mongo_reads env = true → castObjectId userId = Ok (User._id u) →
       NoDup (User._id <$> users db) → u ∈ users db →
       Auth.userinfo env db userId
       = Http.plain 200
           (Http.user_info (User._id u) (User.email u) (User.password u) (User.color u)
              (User.firstName u) (User.lastName u) true)).
Proof.
  unfold Auth.userinfo, User.findById, mongo_read. split; [|split].
  - intros [[e ->]|Hdown]; [done|]. rewrite Hdown.
    by destruct (castObjectId userId).
  - intros o Hup -> Hnone. rewrite Hup. simpl. by rewrite find_by_key_None.
  - intros u Hup -> Hnd Hu. rewrite Hup. simpl. by rewrite (find_by_key User._id).
Qed.

(** D, who signed up and set no profile, is told [profileSetup: true]. *)
Lemma userinfo_outcomes_witness :
  User.profileSetup Sample.dave = false
  ∧ Auth.userinfo (Sample.env false 0 Sample.id4) Sample.with_dave Sample.D
    = Http.plain 200
        (Http.user_info Sample.D "d@example.com" "hashed:pw" None None None true).
Proof.
  split; [reflexivity|].
  destruct (userinfo_outcomes (Sample.env false 0 Sample.id4) Sample.with_dave Sample.D)
    as (_ & _ & Hfound).
  apply (Hfound Sample.dave); try reflexivity.
  - apply sample_users_wf.
  - by apply (bool_decide_unpack _).
Defined.

(** [updateprofile] in every case; the 404 of the source is not among
    them. *)
Lemma updateprofile_cases env db userId color firstName lastName :
  Auth.updateprofile env db userId color firstName lastName
  = match User.findById env (users db) userId with
    | Ok (Some currentUser) =>
      match firstName, lastName with
      | Some f, Some l =>
        if Js.falsy_string f || Js.falsy_string l
        then (db, Http.plain 400 (Http.message "Missing required fields"))
        else if mongo_writes env
        then ({| users :=
                   User.update_first
                     (λ u, bool_decide (User.email u = User.email currentUser))
                     (User.set_profile f l color) (users db);
                 messages := messages db |},
              Http.plain 200 (Http.message "Profile successfully updated"))
        else (db, Http.plain 500 (Http.message "Server or database issue"))
      | _, _ => (db, Http.plain 400 (Http.message "Missing required fields"))
      end
    | _ => (db, Http.plain 500 (Http.message "Server or database issue"))
    end.
Proof.
  unfold Auth.updateprofile, Auth.updateprofile_try.
  destruct (User.findById env (users db) userId) as [[cu|]|e] eqn:Hfind; simpl; try done.
  apply findById_Some_inv in Hfind as [Hcu _].
  destruct firstName as [f|], lastName as [l|]; try done.
  destruct (Js.falsy_string f || Js.falsy_string l); [done|].
  unfold User.findOneAndUpdate, mongo_write. destruct (mongo_writes env); [|done]. simpl.
  destruct (find_is_Some (λ u, bool_decide (User.email u = User.email cu)) (users db) cu Hcu)
    as (v & -> & _); [by apply bool_decide_eq_true|done].
Qed.

(** The ids, emails and passwords are what they were after an update of
    the first document with some property. *)
Lemma update_first_accounts p f l c (us : list User.t) :
  account <$> User.update_first p (User.set_profile f l c) us = account <$> us.
Proof.
  induction us as [|a us IH]; [done|]. cbn [User.update_first].
  destruct (p a); rewrite !fmap_cons; [done|]. by rewrite IH.
Qed.

(** [userinfo] finds the user with the id, ids being unique. *)
Lemma userinfo_found env db userId u :
  mongo_reads env = true → castObjectId userId = Ok (User._id u) →
  NoDup (User._id <$> users db) → u ∈ users db →
  Auth.userinfo env db userId
  = Http.plain 200
      (Http.user_info (User._id u) (User.email u) (User.password u) (User.color u)
         (User.firstName u) (User.lastName u) true).
Proof.
  intros Hup Hcast Hnd Hu. unfold Auth.userinfo, User.findById, mongo_read.
  rewrite Hcast, Hup. simpl. by rewrite (find_by_key User._id).
Qed.

(** X21: what [updateprofile] changes: with unique ids and emails, the
    first and last name of the user of the token are set, its color too
    if the request has one, and nothing else: the other users, the ids,
    emails, passwords and [profileSetup] of all users and the messages are
    as before. *)
Theorem updateprofile_effect env db userId u color f l :
  mongo_reads env = true → mongo_writes env = true →
  castObjectId userId = Ok (User._id u) → u ∈ users db → users_wf db →
  Js.falsy_string f = false → Js.falsy_string l = false →
  Auth.updateprofile env db userId color (Some f) (Some l)
  = ({| users :=
          (λ v, if bool_decide (User._id v = User._id u)
                then {| User._id := User._id v; User.email := User.email v;
                        User.password := User.password v;
                        User.firstName := Some f; User.lastName := Some l;
                        User.color := if color is Some c then Some c else User.color v;
                        User.profileSetup := User.profileSetup v |}
                else v) <$> users db;
        messages := messages db |},
     Http.plain 200 (Http.message "Profile successfully updated")).
Proof.
  intros Hup Hw Hcast Hu Hwf Hf Hl. rewrite updateprofile_cases.
  unfold User.findById, mongo_read. rewrite Hcast, Hup. simpl.
  rewrite (find_by_key User._id _ u (proj1 Hwf) Hu), Hf, Hl, Hw. simpl.
  do 2 f_equal. rewrite (update_first_by_key User.email) by apply Hwf.
  apply list_fmap_ext. intros i v Hv%list_elem_of_lookup_2.
  pose proof (same_email_same_id db u v Hwf Hu Hv) as Hiff.
  destruct (decide (User.email v = User.email u)) as [He|He].
  - rewrite !bool_decide_eq_true_2; [done|tauto|done].
  - rewrite !bool_decide_eq_false_2; [done|tauto|done].
Qed.

(** X22: what has been updated is what [userinfo] then reports: after an
    [updateprofile] that went through, [userinfo] for the same token
    answers with the new names, the new color if one was given and the
    old one otherwise, and the email and password as before. *)
Theorem update_then_userinfo env env' db userId u color f l :
  mongo_reads env = true → mongo_writes env = true →
  castObjectId userId = Ok (User._id u) → u ∈ users db → users_wf db →
  Js.falsy_string f = false → Js.falsy_string l = false →
  mongo_reads env' = true →
  Auth.userinfo env' (Auth.updateprofile env db userId color (Some f) (Some l)).1 userId
  = Http.plain 200
      (Http.user_info (User._id u) (User.email u) (User.password u)
         (if color is Some c then Some c else User.color u) (Some f) (Some l) true).
Proof.
  intros Hup Hw Hcast Hu Hwf Hf Hl Hup'. rewrite updateprofile_cases.
  unfold User.findById at 1. unfold mongo_read. rewrite Hcast, Hup. simpl.
  rewrite (find_by_key User._id _ u (proj1 Hwf) Hu), Hf, Hl, Hw. cbn [fst orb].
  set (us' := User.update_first _ _ _).
  assert (User._id <$> us' = User._id <$> users db) as Hids.
  { pose proof (update_first_accounts
                  (λ v, bool_decide (User.email v = User.email u)) f l color (users db)) as Hacc.
    apply (f_equal (fmap (λ a : string * string * string, a.1.1))) in Hacc.
    by rewrite <- !list_fmap_compose in Hacc. }
  assert (User.set_profile f l color u ∈ us') as Hin.
  { subst us'. rewrite (update_first_by_key User.email) by apply Hwf.
    apply list_elem_of_fmap. exists u. by rewrite bool_decide_eq_true_2. }
  rewrite (userinfo_found env' {| users := us'; messages := messages db |}
             userId (User.set_profile f l color u)); try done.
  simpl. rewrite Hids. apply Hwf.
Qed.

(** X23: [updateprofile] looks the user up, and reads its email, before
    it checks the fields: for a token whose id names no user the answer
    is 500, also when a name is missing, and the answer is never the 404
    "User not found" of the source. Whatever the answer, the ids, emails
    and passwords of the users and the messages stay as they are, and the
    database changes only with the answer 200. *)
Theorem updateprofile_never_not_found env db userId color firstName lastName :
  let db' := (Auth.updateprofile env db userId color firstName lastName).1 in
  let res := (Auth.updateprofile env db userId color firstName lastName).2 in
  Http.status res ≠ 404%nat
  ∧ (¬ resolves db (Some userId) →
     res = Http.plain 500 (Http.message "Server or database issue"))
  ∧ (Http.status res ≠ 200%nat → db' = db)
  ∧ account <$> users db' = account <$> users db
  ∧ messages db' = messages db.
Proof.
  rewrite updateprofile_cases.
  destruct (User.findById env (users db) userId) as [[cu|]|e] eqn:Hfind; simpl.
  - apply findById_Some_inv in Hfind as [Hcu Hcast].
    assert (resolves db (Some userId)) as Hres by (by eexists userId, cu).
    destruct firstName as [f|], lastName as [l|]; simpl; try done.
    destruct (Js.falsy_string f || Js.falsy_string l); simpl; [done|].
    destruct (mongo_writes env); simpl; [|done].
    split; [done|]. split; [done|]. split; [done|]. split; [|done].
    apply update_first_accounts.
  - done.
  - done.
Qed.

(** A sets names and no color. *)
Lemma updateprofile_effect_witness :
  let env := Sample.env false 0 Sample.id4 in
  let db' := (Auth.updateprofile env Sample.two_chats Sample.A None
                (Some "Ann") (Some "Lee")).1 in
  (User.firstName <$> users db') = [Some "Ann"; Some "b"; Some "c"]
  ∧ (User.lastName <$> users db') = [Some "Lee"; None; None].
Proof.
  intros env db'. subst db'.
  rewrite (updateprofile_effect env Sample.two_chats Sample.A (Sample.user Sample.A "a")
             None "Ann" "Lee"); try reflexivity.
  - split; reflexivity.
  - apply list_elem_of_here.
  - apply sample_users_wf.
Defined.

Lemma update_then_userinfo_witness :
  let env := Sample.env false 0 Sample.id4 in
  Auth.userinfo env
    (Auth.updateprofile env Sample.two_chats Sample.A (Some "7") (Some "Ann") (Some "Lee")).1
    Sample.A
  = Http.plain 200
      (Http.user_info Sample.A "a@example.com" "$2b$10$hash" (Some "7")
         (Some "Ann") (Some "Lee") true).
Proof.
  intros env.
  apply (update_then_userinfo env env Sample.two_chats Sample.A
           (Sample.user Sample.A "a") (Some "7") "Ann" "Lee"); try reflexivity.
  - apply list_elem_of_here.
  - apply sample_users_wf.
Defined.

(** ** The other users: [search] and [allContacts] *)

Lemma List_filter_sublist {A} (f : A → bool) (l : list A) :
  List.filter f l `sublist_of` l.
Proof.
  induction l as [|x l IH]; [done|]. simpl.
  destruct (f x); [by apply sublist_skip | by apply sublist_cons].
Qed.

Section contacts.
Context {engine : RegexEngine}.

(** X24: [search] answers 400 exactly when the search term is missing or
    empty. When it answers with contacts, these are whole documents of
    the users, in their order, and a user is among them exactly when it
    is not the user of the token and the expression matches its first
    name, its last name or its email. *)
Theorem search_results env db userId searchTerm :
  let res := Contacts.search env db userId searchTerm in
  (Http.status res = 400%nat ↔ Js.falsy searchTerm = true)
  ∧ ∀ cs, Http.body res = Http.found cs →
      ∃ o q re,
        castObjectId userId = Ok o ∧ searchTerm = Some q ∧ regex_i q = Some re
        ∧ cs `sublist_of` users db
        ∧ ∀ u, u ∈ cs ↔
            u ∈ users db ∧ User._id u ≠ o
            ∧ (User.test_path re (User.firstName u) = true
               ∨ User.test_path re (User.lastName u) = true
               ∨ re (User.email u) = true).
Proof.
  unfold Contacts.search. destruct searchTerm as [q|]; simpl; [|done].
  destruct (Js.falsy_string q) eqn:Hq; simpl; [done|].
  unfold User.find_matching, mongo_read.
  destruct (castObjectId userId) as [o|] eqn:Ho; simpl; [|done].
  destruct (mongo_reads env); [|done].
  destruct (regex_i q) as [re|] eqn:Hre; simpl; [|done].
  split; [done|]. intros cs [= <-]. exists o, q, re.
  split; [done|]. split; [done|]. split; [done|]. split.
  - apply List_filter_sublist.
  - intros u. rewrite list_elem_of_In, filter_In, <- list_elem_of_In.
    rewrite andb_true_iff, !orb_true_iff, negb_true_iff, bool_decide_eq_false. tauto.
Qed.

End contacts.

Lemma length_filter_other_key (g : User.t → string) (us : list User.t) k :
  NoDup (g <$> us) → (∃ u, u ∈ us ∧ g u = k) →
  S (length (List.filter (λ u, negb (bool_decide (g u = k))) us)) = length us.
Proof.
  induction us as [|a us IH]; [by intros _ (? & ?%elem_of_nil & _)|].
  rewrite fmap_cons, NoDup_cons. intros [Ha Hnd] (u & Hu & Hk). simpl.
  destruct (decide (g a = k)) as [Hak|Hak].
  - rewrite bool_decide_eq_true_2 by done. simpl. f_equal.
    rewrite forallb_filter_id; [done|].
    apply forallb_forall. intros v Hv%list_elem_of_In.
    rewrite negb_true_iff, bool_decide_eq_false. intros Hvk. apply Ha.
    rewrite Hak, <- Hvk. by apply list_elem_of_fmap_2.
  - rewrite bool_decide_eq_false_2 by done. simpl. f_equal. apply IH; [done|].
    apply elem_of_cons in Hu as [->|Hu]; [done|]. eauto.
Qed.

(** X25: [allContacts] answers 200 exactly when the database answers and
    the id of the token is an ObjectId. Its contacts are then the other
    users, every one of them and in their order, with id, names, email
    and color and without the password; the user of the token is not
    among them; with unique ids, if the user of the token exists, they
    are one fewer than the users. *)
Theorem allContacts_lists_others env db userId :
  let res := Contacts.allContacts env db userId in
  (Http.status res = 200%nat ↔ mongo_reads env = true ∧ ∃ o, castObjectId userId = Ok o)
  ∧ ∀ cs, Http.body res = Http.contacts cs →
      ∃ o, castObjectId userId = Ok o
        ∧ cs = User.project <$> filter (λ u, User._id u ≠ o) (users db)
        ∧ (∀ c, c ∈ cs → User.c_id c ≠ o)
        ∧ (NoDup (User._id <$> users db) → (∃ u, u ∈ users db ∧ User._id u = o) →
           S (length cs) = length (users db)).
Proof.
  unfold Contacts.allContacts, User.find_others, mongo_read.
  destruct (castObjectId userId) as [o|] eqn:Ho; simpl.
  - destruct (mongo_reads env); simpl.
    + split; [split; [eauto|done]|]. intros cs [= <-]. exists o. split; [done|].
      split; [|split].
      * f_equal. rewrite <- filter_bool_decide. apply filter_ext. intros u.
        by rewrite bool_decide_not.
      * intros c (u & -> & Hu)%list_elem_of_fmap.
        apply list_elem_of_In, filter_In in Hu as [_ Hu].
        by rewrite negb_true_iff, bool_decide_eq_false in Hu.
      * intros Hnd Hex. rewrite length_fmap.
        by apply (length_filter_other_key User._id).
    + split; [|done]. split; [done|]. by intros [? _].
  - split; [|done]. split; [done|]. by intros (_ & ? & ?).
Qed.

(** ** The routes together *)

Section application.
Context {verifier : TokenVerifier} {parser : CookieParser}
        {hasher : PasswordHasher} {signer : TokenSigner} {engine : RegexEngine}.

(** What [signup] does to the database: nothing, or one more user whose
    id and email no user had, with the answer 201. *)
Lemma signup_db env db email password :
  let db' := (Auth.signup env db email password).1 in
  let res := (Auth.signup env db email password).2 in
  (db' = db ∧ Http.status res ≠ 201%nat)
  ∨ (Http.status res = 201%nat ∧ messages db' = messages db
     ∧ ∃ u, users db' = users db ++ [u]
         ∧ ∀ v, v ∈ users db → User._id v ≠ User._id u ∧ User.email v ≠ User.email u).
Proof.
  unfold Auth.signup.
  destruct email as [e|], password as [p|]; simpl; try by left.
  destruct (Js.falsy_string e || Js.falsy_string p); simpl; [by left|].
  destruct (User.findOne env (users db) e) as [[u|]|err]; simpl; try by left.
  rewrite User_save_cases.
  destruct (Js.falsy_string (User.email _)); [by left|].
  destruct (Js.falsy_string (User.password _)); [by left|].
  destruct (mongo_writes env); [|by left].
  destruct (existsb _ (users db)) eqn:Htaken; [by left|].
  right. simpl. split; [done|]. split; [done|]. eexists. split; [done|].
  by apply existsb_taken_false.
Qed.

(** What [updateprofile] does to the database. *)
Lemma updateprofile_db env db userId color firstName lastName :
  let db' := (Auth.updateprofile env db userId color firstName lastName).1 in
  let res := (Auth.updateprofile env db userId color firstName lastName).2 in
  (Http.status res ≠ 200%nat → db' = db)
  ∧ account <$> users db' = account <$> users db
  ∧ messages db' = messages db.
Proof.
  rewrite updateprofile_cases.
  destruct (User.findById env (users db) userId) as [[cu|]|e]; simpl; try done.
  destruct firstName as [f|], lastName as [l|]; simpl; try done.
  destruct (Js.falsy_string f || Js.falsy_string l); simpl; [done|].
  destruct (mongo_writes env); simpl; [|done].
  split; [done|]. split; [|done]. apply update_first_accounts.
Qed.

(** What [verifyToken] in front of an endpoint does to the database: what
    the endpoint does, if anything. *)
Lemma protected_db env db cookies_jwt endpoint (P : Db * Http.reply → Prop) :
  (∀ res, P (db, res)) → (∀ userId, P (endpoint userId)) →
  P (App.protected env db cookies_jwt endpoint).
Proof.
  intros Hsame Hend. unfold App.protected, Api.verifyToken.
  repeat case_match; auto.
Qed.

(** What a request does to the database: the accounts there were stay,
    in their order, and only [signup] adds one; no message is added;
    only the answers 200 and 201 come with a change. *)
Lemma handle_db env db r :
  let db' := (App.handle env db r).1 in
  let res := (App.handle env db r).2 in
  (account <$> users db) `prefix_of` (account <$> users db')
  ∧ (users_wf db → users_wf db')
  ∧ messages db' `sublist_of` messages db
  ∧ (Http.status res ≠ 200%nat → Http.status res ≠ 201%nat → db' = db)
  ∧ match r with
    | App.signup _ _ | App.update_profile _ _ _ _ | App.delete_dm _ _ => True
    | _ => db' = db
    end.
Proof.
  pose (good := λ r : Db * Http.reply,
          (account <$> users db) `prefix_of` (account <$> users r.1)
          ∧ (users_wf db → users_wf r.1)
          ∧ messages r.1 `sublist_of` messages db
          ∧ (Http.status r.2 ≠ 200%nat → Http.status r.2 ≠ 201%nat → r.1 = db)).
  assert (∀ r, r.1 = db → good r) as Hsame.
  { intros [d res] Heq. simpl in Heq. subst d. by unfold good. }
  enough (good (App.handle env db r)
          ∧ match r with
            | App.signup _ _ | App.update_profile _ _ _ _ | App.delete_dm _ _ => True
            | _ => (App.handle env db r).1 = db
            end) as [(? & ? & ? & ?) ?] by done.
  destruct r; cbn [App.handle].
  - (* signup *)
    split; [|done]. unfold good.
    destruct (signup_db env db email password) as [[-> Hno]|(H201 & Hm & u & Hu & Hnew)];
      [done|].
    rewrite Hu, Hm, fmap_app. split; [by apply prefix_app_r|].
    split; [|split; [done|done]].
    intros [Hid Hem]. unfold users_wf. rewrite Hu, !fmap_app. split.
    + apply NoDup_app. split; [done|]. split; [|apply NoDup_singleton].
      intros k (v & -> & Hv)%list_elem_of_fmap [=]%list_elem_of_singleton.
      by destruct (Hnew v Hv).
    + apply NoDup_app. split; [done|]. split; [|apply NoDup_singleton].
      intros k (v & -> & Hv)%list_elem_of_fmap [=]%list_elem_of_singleton.
      by destruct (Hnew v Hv).
  - (* login *) split; [by apply Hsame|done].
  - (* logout *) split; [by apply Hsame|done].
  - (* userinfo *)
    assert ((App.protected env db cookies_jwt
               (λ userId, (db, Auth.userinfo env db userId))).1 = db) as Heq
      by by apply (protected_db env db _ _ (λ r, r.1 = db)).
    split; [by apply Hsame|done].
  - (* update_profile *)
    split; [|done]. apply (protected_db env db _ _ good); [by intros; apply Hsame|].
    intros userId. unfold good.
    destruct (updateprofile_db env db userId color firstName lastName) as (Hno & Hacc & Hm).
    rewrite Hacc, Hm. split; [done|]. split; [|by split; [|intros; apply Hno]].
    intros [Hid Hem].
    assert (∀ us us' : list User.t, account <$> us' = account <$> us →
              User._id <$> us' = User._id <$> us ∧ User.email <$> us' = User.email <$> us)
      as Hproj.
    { intros us us' Heq. split.
      - apply (f_equal (fmap (λ a : string * string * string, a.1.1))) in Heq.
        by rewrite <- !list_fmap_compose in Heq.
      - apply (f_equal (fmap (λ a : string * string * string, a.1.2))) in Heq.
        by rewrite <- !list_fmap_compose in Heq. }
    destruct (Hproj _ _ Hacc) as [Hi He]. unfold users_wf. by rewrite Hi, He.
  - (* search *)
    assert ((App.protected env db cookies_jwt
               (λ userId, (db, Contacts.search env db userId searchTerm))).1 = db) as Heq
      by by apply (protected_db env db _ _ (λ r, r.1 = db)).
    split; [by apply Hsame|done].
  - (* get_contacts_for_list *) split; [by apply Hsame|done].
  - (* all_contacts *)
    assert ((App.protected env db cookies_jwt
               (λ userId, (db, Contacts.allContacts env db userId))).1 = db) as Heq
      by by apply (protected_db env db _ _ (λ r, r.1 = db)).
    split; [by apply Hsame|done].
  - (* delete_dm *)
    split; [|done]. destruct (Js.falsy_string dmId); [by apply Hsame|].
    unfold Api.delete_dm, Api.verifyToken.
    destruct cookies_jwt as [token|]; [|by apply Hsame].
    destruct (Js.falsy_string token); [by apply Hsame|].
    destruct (jwt_verify token (SECRET_KEY env)) as [payload|]; [|by apply Hsame].
    rewrite deleteDm_cases.
    destruct (Js.falsy_string dmId); [by apply Hsame|].
    destruct (castObjectId (Jwt.userId payload)); [|by apply Hsame].
    destruct (castObjectId dmId); [|by apply Hsame].
    destruct (mongo_writes env); [|by apply Hsame].
    unfold good. simpl. split; [done|]. split; [done|]. split; [apply sublist_filter|done].
  - (* get_messages *) split; [by apply Hsame|done].
  - (* get_user_channels *)
    assert ((App.protected env db cookies_jwt (λ _, (db, Contacts.empty))).1 = db) as Heq
      by by apply (protected_db env db _ _ (λ r, r.1 = db)).
    split; [by apply Hsame|done].
  - (* unmatched *) split; [by apply Hsame|done].
Qed.

(** X26: every route behind [verifyToken] turns a request without a
    [jwt] cookie (or with an empty one) away with 401 "Not authenticated"
    and a request whose token [jwt.verify] refuses with 403, before the
    endpoint runs: the database is what it was. *)
Theorem protected_routes_reject env db r c :
  jwt_of r = Some c →
  (Js.falsy c = true →
     App.handle env db r = (db, Http.plain 401 (Http.message "Not authenticated")))
  ∧ (∀ t, c = Some t → Js.falsy_string t = false →
       jwt_verify t (SECRET_KEY env) = None →
       App.handle env db r
       = (db, Http.plain 403 (Http.message "Invalid or expired token."))).
Proof.
  intros Hr. split.
  - intros Hc.
    destruct r; simpl in Hr; try discriminate;
      try (destruct (Js.falsy_string dmId) eqn:Hd; [discriminate|]);
      injection Hr as ->;
      cbn [App.handle]; rewrite ?Hd;
      unfold App.protected, Api.get_contacts_for_list, Api.get_messages, Api.delete_dm,
        Api.verifyToken;
      destruct c as [t|]; simpl in Hc; rewrite ?Hc; reflexivity.
  - intros t -> Ht Hv.
    destruct r; simpl in Hr; try discriminate;
      try (destruct (Js.falsy_string dmId) eqn:Hd; [discriminate|]);
      injection Hr as ->;
      cbn [App.handle]; rewrite ?Hd;
      unfold App.protected, Api.get_contacts_for_list, Api.get_messages, Api.delete_dm,
        Api.verifyToken;
      rewrite Ht, Hv; reflexivity.
Qed.

(** X27: a request that is not answered 200 or 201 has changed nothing;
    no request adds a message; and of all the routes only [signup],
    [update-profile] and [delete-dm] ever change the database. *)
Theorem requests_change_only_on_success env db r :
  let db' := (App.handle env db r).1 in
  let res := (App.handle env db r).2 in
  (Http.status res ≠ 200%nat → Http.status res ≠ 201%nat → db' = db)
  ∧ messages db' `sublist_of` messages db
  ∧ match r with
    | App.signup _ _ | App.update_profile _ _ _ _ | App.delete_dm _ _ => True
    | _ => db' = db
    end.
Proof.
  destruct (handle_db env db r) as (_ & _ & Hm & Hfail & Honly). done.
Qed.

(** *** What holds in every state of the application *)

Lemma app_step_socket env s e :
  (App.step env s (App.on_socket e)).1.1 = (Socket.step env s e).1.
Proof. simpl. by destruct (Socket.step env s e). Qed.

Lemma app_step_request env s r :
  (App.step env s (App.on_request r)).1.1
  = {| Socket.userMap := Socket.userMap s; Socket.sockets := Socket.sockets s;
       Socket.db := (App.handle env (Socket.db s) r).1 |}.
Proof. simpl. by destruct (App.handle env (Socket.db s) r). Qed.

(** X28: with requests and socket events in any order, every entry of
    [userMap] is a live socket of its user, and no socket is entered for
    two users. *)
Theorem app_presence db0 s :
  App.reachable (Socket.initial db0) s →
  Socket.presence_live s
  ∧ ∀ a b h, Socket.userMap s !! a = Some h → Socket.userMap s !! b = Some h → a = b.
Proof.
  intros Hs. assert (Socket.presence_live s) as Hlive.
  { induction Hs as [|env s e _ IH Hfresh].
    - intros U h. simpl. by rewrite lookup_empty.
    - destruct e as [e|r].
      + rewrite app_step_socket. by apply presence_live_step.
      + rewrite app_step_request. exact IH. }
  split; [done|]. intros a b h Ha%Hlive Hb%Hlive. congruence.
Qed.

(** X29: accounts are never lost: in every state of the application the
    users there were at the start are still there, in their order, with
    the id, the email and the password they had, and if ids and emails
    were unique at the start they still are. *)
Theorem app_accounts s0 s :
  App.reachable s0 s →
  (account <$> users (Socket.db s0)) `prefix_of` (account <$> users (Socket.db s))
  ∧ (users_wf (Socket.db s0) → users_wf (Socket.db s)).
Proof.
  induction 1 as [|env s e _ [IHp IHw] _]; [done|].
  destruct e as [e|r].
  - rewrite app_step_socket.
    destruct (step_appends env s e) as [Hu _]. unfold users_wf. by rewrite Hu.
  - rewrite app_step_request. simpl.
    destruct (handle_db env (Socket.db s) r) as (Hp & Hw & _).
    split; [by etrans|auto].
Qed.

Lemma valid_ref_mono db db' ref :
  (account <$> users db) `prefix_of` (account <$> users db') →
  valid_ref db ref → valid_ref db' ref.
Proof.
  intros [k Hk] (u & Hu & ->).
  assert (account u ∈ account <$> users db') as (v & Hv & Hin)%list_elem_of_fmap.
  { rewrite Hk. apply elem_of_app. left. by apply list_elem_of_fmap_2. }
  exists v. split; [done|]. by injection Hv as -> _ _.
Qed.

(** X30: no message ever refers to a user that does not exist: if every
    stored message has users as sender and recipient at the start, then
    so it is in every state of the application. *)
Theorem app_refs_valid s0 s :
  refs_valid (Socket.db s0) → App.reachable s0 s → refs_valid (Socket.db s).
Proof.
  intros H0. induction 1 as [|env s e _ IH _]; [done|].
  destruct e as [e|r].
  - rewrite app_step_socket. destruct e as [id hdr|id|id data]; simpl.
    + by destruct (Socket.authenticate env hdr).
    + by destruct (Socket.sockets s !! id).
    + destruct (Socket.sockets s !! id); [|done].
      pose proof (sendMessage_refs_valid env (Socket.userMap s) (Socket.db s) data IH).
      by destruct (Socket.sendMessage _ _ _ _) as [[??]?].
  - rewrite app_step_request. simpl.
    destruct (handle_db env (Socket.db s) r) as (Hp & _ & Hm & _).
    intros m Hin. apply (elem_of_sublist _ _ _ Hin) in Hm.
    destruct (IH m Hm). split; by eapply valid_ref_mono.
Qed.

End application.

(** A request for the contacts without a cookie. *)
Lemma protected_routes_reject_witness :
  @App.handle Sample.reader Sample.hasher Sample.signer Sample.engine
    (Sample.env false 0 Sample.id4) Sample.two_chats (App.all_contacts None)
  = (Sample.two_chats, Http.plain 401 (Http.message "Not authenticated")).
Proof.
  apply (@protected_routes_reject Sample.reader Sample.hasher Sample.signer Sample.engine
           (Sample.env false 0 Sample.id4) Sample.two_chats (App.all_contacts None) None);
    reflexivity.
Defined.

(** B connects as 4, then somebody signs up. *)
Lemma app_presence_witness :
  let env := Sample.env false 5000 Sample.id4 in
  let step := @App.step Sample.verifier Sample.parser Sample.hasher Sample.signer
                Sample.engine env in
  let s1 := (step (Socket.initial Sample.two_chats)
               (App.on_socket (Socket.Connect 4%N (Some "jwt=token-of-b")))).1.1 in
  let s2 := (step s1 (App.on_request (App.signup (Some "d@example.com") (Some "pw")))).1.1 in
  Socket.presence_live s2
  ∧ ∀ a b h, Socket.userMap s2 !! a = Some h → Socket.userMap s2 !! b = Some h → a = b.
Proof.
  intros env step s1 s2.
  apply (@app_presence Sample.verifier Sample.parser Sample.hasher Sample.signer
           Sample.engine Sample.two_chats s2).
  apply App.reachable_step; [|exact I].
  apply App.reachable_step; [apply App.reachable_start | reflexivity].
Defined.

Lemma app_accounts_witness :
  let env := Sample.env false 5000 Sample.id4 in
  let step := @App.step Sample.verifier Sample.parser Sample.hasher Sample.signer
                Sample.engine env in
  let s0 := Socket.initial Sample.two_chats in
  let s1 := (step s0 (App.on_request (App.signup (Some "d@example.com") (Some "pw")))).1.1 in
  length (users (Socket.db s1)) = 4%nat
  ∧ (account <$> users Sample.two_chats) `prefix_of` (account <$> users (Socket.db s1))
  ∧ users_wf (Socket.db s1).
Proof.
  intros env step s0 s1. split; [reflexivity|].
  destruct (@app_accounts Sample.verifier Sample.parser Sample.hasher Sample.signer
              Sample.engine s0 s1) as [Hp Hw].
  { apply App.reachable_step; [apply App.reachable_start | exact I]. }
  split; [exact Hp|]. apply Hw, sample_users_wf.
Defined.

Lemma app_refs_valid_witness :
  let env := Sample.env false 5000 Sample.id4 in
  let step := @App.step Sample.verifier Sample.parser Sample.hasher Sample.signer
                Sample.engine env in
  let s0 := Socket.initial Sample.two_chats in
  let s1 := (step s0 (App.on_request (App.signup (Some "d@example.com") (Some "pw")))).1.1 in
  refs_valid (Socket.db s1).
Proof.
  intros env step s0 s1.
  apply (@app_refs_valid Sample.verifier Sample.parser Sample.hasher Sample.signer
           Sample.engine s0 s1).
  - intros m Hm. simpl in Hm.
    repeat (apply elem_of_cons in Hm as [->|Hm]); [..|by apply elem_of_nil in Hm].
    + split; [exists (Sample.user Sample.A "a")|exists (Sample.user Sample.B "b")];
        (split; [by apply (bool_decide_unpack _)|reflexivity]).
    + split; [exists (Sample.user Sample.A "a")|exists (Sample.user Sample.C "c")];
        (split; [by apply (bool_decide_unpack _)|reflexivity]).
  - apply App.reachable_step; [apply App.reachable_start | exact I].
Defined.

(** A looks for "B@EX": the search finds B, by its email, whatever the
    case of the letters. *)
Example search_by_email :
  @Contacts.search Sample.engine (Sample.env false 0 Sample.id4) Sample.two_chats
    Sample.A (Some "B@EX")
  = Http.plain 200 (Http.found [Sample.user Sample.B "b"]).
Proof. reflexivity. Qed.

(** [DELETE /api/contacts/delete-dm/] without an id is no route, with or
    without a token. *)
Example delete_dm_without_id :
  @App.handle Sample.verifier Sample.hasher Sample.signer Sample.engine
    (Sample.env false 0 Sample.id4) Sample.two_chats
    (App.delete_dm (Some "token-of-a") "")
  = (Sample.two_chats, Http.plain 404 (Http.text "Not Found")).
Proof. reflexivity. Qed.
